(** * Virtual try-on: the outfit/pose history state machine

    A shallow embedding of the session logic of [App.tsx] (the component
    state, the event handlers and their continuations after the image
    service answers), of the pose navigation of [components/Canvas.tsx] and
    of the response decoding of [services/geminiService.ts].

    How the React component is read:
    - the component state is a record [State].  A handler reads the state of
      the render it was created in and writes the current state; it is
      modelled as invoked on an up-to-date render, so both are one state
      [s].  Every [useCallback] lists all state it reads, and [Canvas] and
      [OutfitStack] call their props directly from event handlers.
      ([WardrobePanel] downloads the garment image before it calls
      [onGarmentSelect]; the model starts at that call.)
    - an [async] handler is split at its single [await]: the part before it
      is a function from [State] to [Started], the part after it a function
      [resolve] of the answer of the image service and of the state at that
      moment.  Values the continuation reads from its closure come from the
      state at invocation; functional updaters ([setX(prev => ...)]) read
      the state at resolution.
    - objects are values.  Layers are only mutated inside the updater that
      replaces the history, and no layer is stored twice, so nothing
      observes the aliasing. *)

From Stdlib Require Import String Ascii List Bool Arith NArith Lia.
Import ListNotations.
Open Scope string_scope.

(** ** JavaScript values used by the program *)

Module Js.

(** A plain object whose values are strings, as the list of its own
    properties in [Object.keys] order.  Pose instructions are assumed not
    to name members inherited from [Object.prototype]. *)
Definition Obj := list (string * string).

(** [o[k]] for a [string | undefined] key: [undefined] is converted to the
    property name ["undefined"]. *)
Definition key_of (k : option string) : string :=
  match k with Some s => s | None => "undefined" end.

(** Truthiness of a [string | null | undefined]. *)
Definition truthy (v : option string) : bool :=
  match v with Some s => negb (s =? "") | None => false end.

(** The string held by a value that passed a truthiness test. *)
Definition str (v : option string) : string :=
  match v with Some s => s | None => "" end.

Fixpoint get (o : Obj) (k : string) : option string :=
  match o with
  | [] => None
  | (k', v) :: r => if k' =? k then Some v else get r k
  end.

Definition keys (o : Obj) : list string := map fst o.
Definition values (o : Obj) : list string := map snd o.

(** Array-index property names: canonical decimal numerals up to 2^32 - 2.
    They come first in key order, ascending; other names follow in the
    order they were added. *)
Definition digit (c : ascii) : option N :=
  let n := N_of_ascii c in
  if ((48 <=? n) && (n <=? 57))%N then Some (n - 48)%N else None.

Fixpoint digits (s : string) (acc : N) : option N :=
  match s with
  | EmptyString => Some acc
  | String c r =>
      match digit c with
      | Some d => digits r (10 * acc + d)%N
      | None => None
      end
  end.

Definition array_index (k : string) : option N :=
  match k with
  | EmptyString => None
  | String c r =>
      if (c =? "0")%char && negb (r =? "") then None
      else match digits k 0 with
           | Some n => if (n <=? 4294967294)%N then Some n else None
           | None => None
           end
  end.

Fixpoint replace (o : Obj) (k v : string) : Obj :=
  match o with
  | [] => []
  | (k', v') :: r => if k' =? k then (k', v) :: r else (k', v') :: replace r k v
  end.

Fixpoint insert_index (o : Obj) (n : N) (k v : string) : Obj :=
  match o with
  | [] => [(k, v)]
  | (k', v') :: r =>
      match array_index k' with
      | Some m => if (m <? n)%N then (k', v') :: insert_index r n k v
                  else (k, v) :: o
      | None => (k, v) :: o
      end
  end.

(** [o[k] = v] *)
Definition set (o : Obj) (k v : string) : Obj :=
  match get o k with
  | Some _ => replace o k v
  | None =>
      match array_index k with
      | Some n => insert_index o n k v
      | None => (o ++ [(k, v)])%list
      end
  end.

(** [{ [k]: v }] *)
Definition singleton (k v : string) : Obj := [(k, v)].

(** [arr.indexOf(x)] on an array of strings, [x : string | undefined];
    [None] is -1. *)
Fixpoint indexOf_from (arr : list string) (x : string) (i : nat) : option nat :=
  match arr with
  | [] => None
  | y :: r => if y =? x then Some i else indexOf_from r x (S i)
  end.

Definition indexOf (arr : list string) (x : option string) : option nat :=
  match x with
  | Some s => indexOf_from arr s 0
  | None => None
  end.

(** [arr.findIndex(p)]; [None] is -1. *)
Fixpoint findIndex_from {A} (p : A -> bool) (arr : list A) (i : nat) : option nat :=
  match arr with
  | [] => None
  | y :: r => if p y then Some i else findIndex_from p r (S i)
  end.

Definition findIndex {A} (p : A -> bool) (arr : list A) : option nat :=
  findIndex_from p arr 0.

(** [arr.slice(0, n)] *)
Definition slice0 {A} (arr : list A) (n : nat) : list A := firstn n arr.

(** The array [arr] with the element at [i] replaced by [f] of it. *)
Fixpoint update {A} (arr : list A) (i : nat) (f : A -> A) : list A :=
  match arr, i with
  | [], _ => []
  | x :: r, 0 => f x :: r
  | x :: r, S j => x :: update r j f
  end.

(** [a % b] on non-negative integers; [None] is [NaN]. *)
Definition rem (a b : nat) : option nat :=
  if (b =? 0)%nat then None else Some (a mod b).

End Js.

(** ** Data model ([types.ts], as used by [App.tsx]) *)

Record WardrobeItem := mkItem { id : string; name : string; url : string }.

Record OutfitLayer := mkLayer
  { garment : option WardrobeItem;
    poseImages : Js.Obj }.

(** [wardrobe.ts] *)
Definition defaultWardrobe : list WardrobeItem :=
  [ mkItem "gemini-sweat" "Gemini Sweat"
      "https://raw.githubusercontent.com/ammaarreshi/app-images/refs/heads/main/gemini-sweat-2.png";
    mkItem "gemini-tee" "Gemini Tee"
      "https://raw.githubusercontent.com/ammaarreshi/app-images/refs/heads/main/Gemini-tee.png";
    mkItem "vto-backpack" "Leather Backpack"
      "https://storage.googleapis.com/gemini-95-icons/vto-backpack.png";
    mkItem "vto-necklace" "Gold Necklace"
      "https://storage.googleapis.com/gemini-95-icons/vto-necklace.png";
    mkItem "vto-watch" "Silver Watch"
      "https://storage.googleapis.com/gemini-95-icons/vto-watch.png" ].

Definition DEFAULT_POSE_INSTRUCTIONS : list string :=
  [ "Full frontal view, hands on hips";
    "Slightly turned, 3/4 view";
    "Side profile view";
    "Jumping in the air, mid-action shot";
    "Walking towards camera";
    "Leaning against a wall" ].

(** The [useState] cells of [App]. *)
Record State := mkState
  { modelImageUrl : option string;
    outfitHistory : list OutfitLayer;
    currentOutfitIndex : nat;
    isLoading : bool;
    loadingMessage : string;
    error : option string;
    currentPoseIndex : nat;
    poseInstructions : list string;
    isSheetCollapsed : bool;
    wardrobe : list WardrobeItem }.

Definition initialState : State :=
  {| modelImageUrl := None;
     outfitHistory := [];
     currentOutfitIndex := 0;
     isLoading := false;
     loadingMessage := "";
     error := None;
     currentPoseIndex := 0;
     poseInstructions := DEFAULT_POSE_INSTRUCTIONS;
     isSheetCollapsed := false;
     wardrobe := defaultWardrobe |}.

(** The state setters. *)
Definition setModelImageUrl (v : option string) (s : State) : State :=
  mkState v (outfitHistory s) (currentOutfitIndex s) (isLoading s)
    (loadingMessage s) (error s) (currentPoseIndex s) (poseInstructions s)
    (isSheetCollapsed s) (wardrobe s).

Definition setOutfitHistory (v : list OutfitLayer) (s : State) : State :=
  mkState (modelImageUrl s) v (currentOutfitIndex s) (isLoading s)
    (loadingMessage s) (error s) (currentPoseIndex s) (poseInstructions s)
    (isSheetCollapsed s) (wardrobe s).

Definition setCurrentOutfitIndex (v : nat) (s : State) : State :=
  mkState (modelImageUrl s) (outfitHistory s) v (isLoading s)
    (loadingMessage s) (error s) (currentPoseIndex s) (poseInstructions s)
    (isSheetCollapsed s) (wardrobe s).

Definition setIsLoading (v : bool) (s : State) : State :=
  mkState (modelImageUrl s) (outfitHistory s) (currentOutfitIndex s) v
    (loadingMessage s) (error s) (currentPoseIndex s) (poseInstructions s)
    (isSheetCollapsed s) (wardrobe s).

Definition setLoadingMessage (v : string) (s : State) : State :=
  mkState (modelImageUrl s) (outfitHistory s) (currentOutfitIndex s)
    (isLoading s) v (error s) (currentPoseIndex s) (poseInstructions s)
    (isSheetCollapsed s) (wardrobe s).

Definition setError (v : option string) (s : State) : State :=
  mkState (modelImageUrl s) (outfitHistory s) (currentOutfitIndex s)
    (isLoading s) (loadingMessage s) v (currentPoseIndex s)
    (poseInstructions s) (isSheetCollapsed s) (wardrobe s).

Definition setCurrentPoseIndex (v : nat) (s : State) : State :=
  mkState (modelImageUrl s) (outfitHistory s) (currentOutfitIndex s)
    (isLoading s) (loadingMessage s) (error s) v (poseInstructions s)
    (isSheetCollapsed s) (wardrobe s).

Definition setPoseInstructions (v : list string) (s : State) : State :=
  mkState (modelImageUrl s) (outfitHistory s) (currentOutfitIndex s)
    (isLoading s) (loadingMessage s) (error s) (currentPoseIndex s) v
    (isSheetCollapsed s) (wardrobe s).

Definition setWardrobe (v : list WardrobeItem) (s : State) : State :=
  mkState (modelImageUrl s) (outfitHistory s) (currentOutfitIndex s)
    (isLoading s) (loadingMessage s) (error s) (currentPoseIndex s)
    (poseInstructions s) (isSheetCollapsed s) v.

(** ** Derived values ([useMemo]) *)

Definition currentPoseInstruction (s : State) : option string :=
  nth_error (poseInstructions s) (currentPoseIndex s).

Definition displayImageUrl (s : State) : option string :=
  match outfitHistory s with
  | [] => modelImageUrl s
  | _ =>
      match nth_error (outfitHistory s) (currentOutfitIndex s) with
      | None => modelImageUrl s
      | Some currentLayer =>
          match Js.get (poseImages currentLayer)
                  (Js.key_of (currentPoseInstruction s)) with
          | Some img => Some img
          | None => hd_error (Js.values (poseImages currentLayer))
          end
      end
  end.

Definition availablePoseKeys (s : State) : list string :=
  match outfitHistory s with
  | [] => []
  | _ =>
      match nth_error (outfitHistory s) (currentOutfitIndex s) with
      | Some currentLayer => Js.keys (poseImages currentLayer)
      | None => []
      end
  end.

(** ** The host environment

    What the handlers use and the sources do not define: the DOM [File]
    type, the values a promise can reject with, the string methods
    [toLowerCase] and [trim] of the JavaScript runtime, and
    [getFriendlyErrorMessage] of [lib/utils.ts], which turns a caught value
    and a context string into the displayed message. *)
Class Host := mkHost
  { File : Type;
    Thrown : Type;
    toLowerCase : string -> string;
    trim : string -> string;
    getFriendlyErrorMessage : Thrown -> string -> string }.

Section Controller.

Context `{host : Host}.

(** The four operations of [services/geminiService.ts] a handler awaits,
    with their arguments. *)
Inductive GatewayCall :=
| generateVirtualTryOnImage (modelImage : string) (garmentImage : File)
| generatePoseVariation (tryOnImage : string) (poseInstruction : option string)
| changeBackgroundImage (baseImage : string) (backgroundPrompt : string)
| changeBackgroundImageWithImage (baseImage : string) (backgroundImageFile : File).

(** How the awaited promise settles. *)
Inductive Outcome :=
| Fulfilled (newImageUrl : string)
| Rejected (err : Thrown).

(** The rest of an [async] handler after its [await]. *)
Inductive Continuation :=
| AfterGarmentSelect (garmentInfo : WardrobeItem)
| AfterPoseSelect (newIndex : nat)
| AfterCustomPose (trimmedPrompt : string)
| AfterBackgroundChange.

(** A suspended handler: the state its closure was created on, and what it
    does next. *)
Record Pending := mkPending
  { closure : State;
    continuation : Continuation }.

(** What invoking a handler does up to its first suspension. *)
Inductive Started :=
| Returned (s : State)
    (* ran to its end without awaiting; [s] is the state it leaves *)
| Aborted (s : State)
    (* a [TypeError] rejected the handler's promise before any state update *)
| Suspended (s : State) (call : GatewayCall) (k : Pending).
    (* awaiting [call]; [s] holds the updates made before the [await] *)

(** ** Synchronous handlers *)

Definition handleModelFinalized (url : string) (s : State) : State :=
  let s := setModelImageUrl (Some url) s in
  let s := setOutfitHistory
             [ mkLayer None
                 (Js.singleton (Js.key_of (nth_error (poseInstructions s) 0)) url) ]
             s in
  setCurrentOutfitIndex 0 s.

Definition handleStartOver (s : State) : State :=
  {| modelImageUrl := None;
     outfitHistory := [];
     currentOutfitIndex := 0;
     isLoading := false;
     loadingMessage := "";
     error := None;
     currentPoseIndex := 0;
     poseInstructions := DEFAULT_POSE_INSTRUCTIONS;
     isSheetCollapsed := false;
     wardrobe := defaultWardrobe |}.

Definition handleRemoveLastGarment (s : State) : State :=
  if (0 <? currentOutfitIndex s)%nat then
    let s := setCurrentOutfitIndex (currentOutfitIndex s - 1) s in
    setCurrentPoseIndex 0 s
  else s.

(** ** Asynchronous handlers, up to the [await] *)

(** [nextLayer && nextLayer.garment?.id === garmentInfo.id] *)
Definition isCachedNextLayer (nextLayer : option OutfitLayer)
    (garmentInfo : WardrobeItem) : bool :=
  match nextLayer with
  | Some l =>
      match garment l with
      | Some g => id g =? id garmentInfo
      | None => false
      end
  | None => false
  end.

Definition handleGarmentSelect (s : State) (garmentFile : File)
    (garmentInfo : WardrobeItem) : Started :=
  if negb (Js.truthy (displayImageUrl s)) || isLoading s then Returned s
  else
    let nextLayer := nth_error (outfitHistory s) (currentOutfitIndex s + 1) in
    if isCachedNextLayer nextLayer garmentInfo then
      let s := setCurrentOutfitIndex (currentOutfitIndex s + 1) s in
      Returned (setCurrentPoseIndex 0 s)
    else
      let s1 := setError None s in
      let s1 := setIsLoading true s1 in
      let s1 := setLoadingMessage ("Adding " ++ name garmentInfo ++ "...") s1 in
      Suspended s1
        (generateVirtualTryOnImage (Js.str (displayImageUrl s)) garmentFile)
        (mkPending s (AfterGarmentSelect garmentInfo)).

Definition handlePoseSelect (s : State) (newIndex : nat) : Started :=
  if isLoading s || (length (outfitHistory s) =? 0)%nat
     || (newIndex =? currentPoseIndex s)%nat
  then Returned s
  else
    let poseInstruction := nth_error (poseInstructions s) newIndex in
    match nth_error (outfitHistory s) (currentOutfitIndex s) with
    | None => Aborted s
    | Some currentLayer =>
        if Js.truthy (Js.get (poseImages currentLayer) (Js.key_of poseInstruction))
        then Returned (setCurrentPoseIndex newIndex s)
        else
          let baseImageForPoseChange := hd_error (Js.values (poseImages currentLayer)) in
          if negb (Js.truthy baseImageForPoseChange) then Returned s
          else
            let s1 := setError None s in
            let s1 := setIsLoading true s1 in
            let s1 := setLoadingMessage "Changing pose..." s1 in
            let s1 := setCurrentPoseIndex newIndex s1 in
            Suspended s1
              (generatePoseVariation (Js.str baseImageForPoseChange) poseInstruction)
              (mkPending s (AfterPoseSelect newIndex))
    end.

(** [handlePoseSelect(existingIndex)] called without [await]: its promise is
    dropped, so a rejection of it does not reach the caller. *)
Definition callUnawaited (r : Started) : Started :=
  match r with
  | Aborted s => Returned s
  | _ => r
  end.

Definition handleCustomPoseGenerate (s : State) (posePrompt : string) : Started :=
  if (trim posePrompt =? "") || isLoading s || negb (Js.truthy (displayImageUrl s))
  then Returned s
  else
    let trimmedPrompt := trim posePrompt in
    let existingIndex :=
      Js.findIndex (fun p => toLowerCase p =? toLowerCase trimmedPrompt)
        (poseInstructions s) in
    match existingIndex with
    | Some i => callUnawaited (handlePoseSelect s i)
    | None =>
        match nth_error (outfitHistory s) (currentOutfitIndex s) with
        | None => Aborted s
        | Some currentLayer =>
            let baseImageForPoseChange := hd_error (Js.values (poseImages currentLayer)) in
            if negb (Js.truthy baseImageForPoseChange) then Returned s
            else
              let s1 := setError None s in
              let s1 := setIsLoading true s1 in
              let s1 := setLoadingMessage "Creating custom pose..." s1 in
              let newPoseIndex := length (poseInstructions s) in
              let s1 := setPoseInstructions
                          (poseInstructions s1 ++ [trimmedPrompt])%list s1 in
              let s1 := setCurrentPoseIndex newPoseIndex s1 in
              Suspended s1
                (generatePoseVariation (Js.str baseImageForPoseChange)
                   (Some trimmedPrompt))
                (mkPending s (AfterCustomPose trimmedPrompt))
        end
    end.

(** [handleBackgroundChange] and [handleBackgroundImageUpload] differ only
    in the operation they await. *)
Definition startBackgroundChange (s : State) (call : string -> GatewayCall) : Started :=
  if isLoading s || negb (Js.truthy (displayImageUrl s)) then Returned s
  else
    let s1 := setError None s in
    let s1 := setIsLoading true s1 in
    let s1 := setLoadingMessage "Changing background..." s1 in
    Suspended s1 (call (Js.str (displayImageUrl s)))
      (mkPending s AfterBackgroundChange).

Definition handleBackgroundChange (s : State) (prompt : string) : Started :=
  startBackgroundChange s (fun img => changeBackgroundImage img prompt).

Definition handleBackgroundImageUpload (s : State) (file : File) : Started :=
  startBackgroundChange s (fun img => changeBackgroundImageWithImage img file).

(** ** Asynchronous handlers, after the [await]

    [c] is the state the handler's closure was created on, [s] the state
    when the promise settles.  The result is [None] when a state updater
    throws, which unmounts the component. *)

(** The [finally] block shared by all handlers. *)
Definition finallyIdle (s : State) : State :=
  let s := setIsLoading false s in
  setLoadingMessage "" s.

Definition catchError (err : Thrown) (context : string) (s : State) : State :=
  setError (Some (getFriendlyErrorMessage err context)) s.

(** The updater of [handleGarmentSelect]: cut the history after the closure's
    cursor, then add the new layer. *)
Definition pushLayer (c : State) (newLayer : OutfitLayer)
    (prevHistory : list OutfitLayer) : list OutfitLayer :=
  let newHistory := Js.slice0 prevHistory (currentOutfitIndex c + 1) in
  (newHistory ++ [newLayer])%list.

Definition addToWardrobe (garmentInfo : WardrobeItem)
    (prev : list WardrobeItem) : list WardrobeItem :=
  match find (fun item => id item =? id garmentInfo) prev with
  | Some _ => prev
  | None => (prev ++ [garmentInfo])%list
  end.

Definition afterGarmentSelect (c : State) (garmentInfo : WardrobeItem)
    (o : Outcome) (s : State) : option State :=
  match o with
  | Fulfilled newImageUrl =>
      let newLayer :=
        mkLayer (Some garmentInfo)
          (Js.singleton (Js.key_of (currentPoseInstruction c)) newImageUrl) in
      let s := setOutfitHistory (pushLayer c newLayer (outfitHistory s)) s in
      let s := setCurrentOutfitIndex (currentOutfitIndex s + 1) s in
      let s := setWardrobe (addToWardrobe garmentInfo (wardrobe s)) s in
      Some (finallyIdle s)
  | Rejected err =>
      Some (finallyIdle (catchError err "Failed to apply garment" s))
  end.

(** The updater of the two pose handlers:
    [newHistory[currentOutfitIndex].poseImages[key] = newImageUrl]. *)
Definition recordPoseImage (c : State) (key newImageUrl : string)
    (prevHistory : list OutfitLayer) : option (list OutfitLayer) :=
  match nth_error prevHistory (currentOutfitIndex c) with
  | None => None
  | Some _ =>
      Some (Js.update prevHistory (currentOutfitIndex c)
              (fun updatedLayer =>
                 mkLayer (garment updatedLayer)
                   (Js.set (poseImages updatedLayer) key newImageUrl)))
  end.

Definition afterPoseSelect (c : State) (newIndex : nat)
    (o : Outcome) (s : State) : option State :=
  let poseInstruction := nth_error (poseInstructions c) newIndex in
  let prevPoseIndex := currentPoseIndex c in
  match o with
  | Fulfilled newImageUrl =>
      match recordPoseImage c (Js.key_of poseInstruction) newImageUrl
              (outfitHistory s) with
      | Some newHistory => Some (finallyIdle (setOutfitHistory newHistory s))
      | None => None
      end
  | Rejected err =>
      let s := catchError err "Failed to change pose" s in
      let s := setCurrentPoseIndex prevPoseIndex s in
      Some (finallyIdle s)
  end.

Definition afterCustomPose (c : State) (trimmedPrompt : string)
    (o : Outcome) (s : State) : option State :=
  let prevPoseIndex := currentPoseIndex c in
  match o with
  | Fulfilled newImageUrl =>
      match recordPoseImage c trimmedPrompt newImageUrl (outfitHistory s) with
      | Some newHistory => Some (finallyIdle (setOutfitHistory newHistory s))
      | None => None
      end
  | Rejected err =>
      let s := catchError err "Failed to create custom pose" s in
      let s := setCurrentPoseIndex prevPoseIndex s in
      let s := setPoseInstructions
                 (filter (fun p => negb (p =? trimmedPrompt)) (poseInstructions s)) s in
      Some (finallyIdle s)
  end.

(** [JSON.parse(JSON.stringify(prevHistory))]: the history holds strings,
    [null] and plain objects only, so the copy has the same content and the
    same key order; with objects as values it is the same value. *)
Definition jsonClone (prevHistory : list OutfitLayer) : list OutfitLayer :=
  prevHistory.

(** The updater of the two background handlers. *)
Definition overwriteCurrentPoseImage (c : State) (newImageUrl : string)
    (prevHistory : list OutfitLayer) : list OutfitLayer :=
  let newHistory := jsonClone prevHistory in
  match nth_error newHistory (currentOutfitIndex c) with
  | Some _ =>
      if Js.truthy (currentPoseInstruction c) then
        Js.update newHistory (currentOutfitIndex c)
          (fun currentLayer =>
             mkLayer (garment currentLayer)
               (Js.set (poseImages currentLayer)
                  (Js.key_of (currentPoseInstruction c)) newImageUrl))
      else newHistory
  | None => newHistory
  end.

Definition afterBackgroundChange (c : State) (o : Outcome) (s : State)
    : option State :=
  match o with
  | Fulfilled newImageUrl =>
      Some (finallyIdle
              (setOutfitHistory
                 (overwriteCurrentPoseImage c newImageUrl (outfitHistory s)) s))
  | Rejected err =>
      Some (finallyIdle (catchError err "Failed to change background" s))
  end.

Definition resolve (k : Pending) (o : Outcome) (s : State) : option State :=
  match continuation k with
  | AfterGarmentSelect garmentInfo => afterGarmentSelect (closure k) garmentInfo o s
  | AfterPoseSelect newIndex => afterPoseSelect (closure k) newIndex o s
  | AfterCustomPose trimmedPrompt => afterCustomPose (closure k) trimmedPrompt o s
  | AfterBackgroundChange => afterBackgroundChange (closure k) o s
  end.

(** A handler run with nothing else happening while it waits: [o] settles
    the call if one is made. *)
Definition complete (r : Started) (o : Outcome) : option State :=
  match r with
  | Returned s => Some s
  | Aborted s => Some s
  | Suspended s _ k => resolve k o s
  end.

(** The state right after the handler was invoked. *)
Definition stateOf (r : Started) : State :=
  match r with
  | Returned s => s
  | Aborted s => s
  | Suspended s _ _ => s
  end.

(** The number of calls to the image service a handler invocation makes. *)
Definition gatewayCalls (r : Started) : nat :=
  match r with
  | Suspended _ _ _ => 1
  | _ => 0
  end.

(** ** Pose navigation ([components/Canvas.tsx])

    The arrows call [onSelectPose], which [App] binds to [handlePoseSelect]. *)

Inductive NavCall :=
| NoCall
| onSelectPose (index : nat)
| onSelectPoseNaN.   (* the remainder by an empty catalog *)

Definition selectRem (a b : nat) : NavCall :=
  match Js.rem a b with
  | Some i => onSelectPose i
  | None => onSelectPoseNaN
  end.

Definition handlePreviousPose (isLoading : bool) (availablePoseKeys : list string)
    (poseInstructions : list string) (currentPoseIndex : nat) : NavCall :=
  if isLoading || (length availablePoseKeys <=? 1)%nat then NoCall
  else
    let currentPoseInstruction := nth_error poseInstructions currentPoseIndex in
    match Js.indexOf availablePoseKeys currentPoseInstruction with
    | None =>
        selectRem (currentPoseIndex + length poseInstructions - 1)
          (length poseInstructions)
    | Some currentIndexInAvailable =>
        let prevIndexInAvailable :=
          (currentIndexInAvailable + length availablePoseKeys - 1)
            mod length availablePoseKeys in
        let prevPoseInstruction := nth_error availablePoseKeys prevIndexInAvailable in
        match Js.indexOf poseInstructions prevPoseInstruction with
        | Some newGlobalPoseIndex => onSelectPose newGlobalPoseIndex
        | None => NoCall
        end
    end.

Definition handleNextPose (isLoading : bool) (availablePoseKeys : list string)
    (poseInstructions : list string) (currentPoseIndex : nat) : NavCall :=
  if isLoading then NoCall
  else
    let currentPoseInstruction := nth_error poseInstructions currentPoseIndex in
    match Js.indexOf availablePoseKeys currentPoseInstruction with
    | None => selectRem (currentPoseIndex + 1) (length poseInstructions)
    | Some currentIndexInAvailable =>
        if (length availablePoseKeys =? 0)%nat then
          selectRem (currentPoseIndex + 1) (length poseInstructions)
        else
          let nextIndexInAvailable := currentIndexInAvailable + 1 in
          if (nextIndexInAvailable <? length availablePoseKeys)%nat then
            let nextPoseInstruction := nth_error availablePoseKeys nextIndexInAvailable in
            match Js.indexOf poseInstructions nextPoseInstruction with
            | Some newGlobalPoseIndex => onSelectPose newGlobalPoseIndex
            | None => NoCall
            end
          else selectRem (currentPoseIndex + 1) (length poseInstructions)
    end.

(** The arrows as [App] wires them: props from the state, and the call
    handed to [handlePoseSelect]. *)
Definition nextPoseTarget (s : State) : NavCall :=
  handleNextPose (isLoading s) (availablePoseKeys s) (poseInstructions s)
    (currentPoseIndex s).

Definition previousPoseTarget (s : State) : NavCall :=
  handlePreviousPose (isLoading s) (availablePoseKeys s) (poseInstructions s)
    (currentPoseIndex s).

(** ** The operations the presentation layer can trigger *)

Inductive Operation :=
| FinalizeModel (url : string)
| StartOver
| ApplyGarment (garmentFile : File) (garmentInfo : WardrobeItem)
| RemoveLastGarment
| SelectPose (newIndex : nat)
| GenerateCustomPose (posePrompt : string)
| ChangeBackground (prompt : string)
| UploadBackground (file : File).

Definition invoke (s : State) (op : Operation) : Started :=
  match op with
  | FinalizeModel url => Returned (handleModelFinalized url s)
  | StartOver => Returned (handleStartOver s)
  | ApplyGarment garmentFile garmentInfo => handleGarmentSelect s garmentFile garmentInfo
  | RemoveLastGarment => Returned (handleRemoveLastGarment s)
  | SelectPose newIndex => handlePoseSelect s newIndex
  | GenerateCustomPose posePrompt => handleCustomPoseGenerate s posePrompt
  | ChangeBackground prompt => handleBackgroundChange s prompt
  | UploadBackground file => handleBackgroundImageUpload s file
  end.

(** ** Sequences of operations *)

(** One [handleGarmentSelect] that reaches the image service and is
    answered with [newImageUrl] before anything else happens; [None] when
    the handler returns without calling the service. *)
Definition applyGarment (s : State) (garmentFile : File)
    (garmentInfo : WardrobeItem) (newImageUrl : string) : option State :=
  match handleGarmentSelect s garmentFile garmentInfo with
  | Suspended s1 _ k => resolve k (Fulfilled newImageUrl) s1
  | _ => None
  end.

Fixpoint applyGarments (s : State)
    (ops : list (File * WardrobeItem * string)) : option State :=
  match ops with
  | [] => Some s
  | (garmentFile, garmentInfo, newImageUrl) :: rest =>
      match applyGarment s garmentFile garmentInfo newImageUrl with
      | Some s' => applyGarments s' rest
      | None => None
      end
  end.

End Controller.

(** ** Decoding the answer of the image service ([services/geminiService.ts])

    The parts of a [GenerateContentResponse] that [handleApiResponse]
    reads.  All four operations end in [return handleApiResponse(response)],
    so an image a handler receives is a result of this function. *)

Record InlineData := mkInlineData
  { mimeType : option string;
    data : option string }.

Record Part := mkPart { inlineData : option InlineData }.

Record Candidate := mkCandidate
  { parts : option (list Part);        (* [candidate.content?.parts] *)
    finishReason : option string }.

Record GenerateContentResponse := mkResponse
  { blockReason : option string;        (* [promptFeedback?.blockReason] *)
    blockReasonMessage : option string; (* [promptFeedback?.blockReasonMessage] *)
    candidates : option (list Candidate);
    text : option string }.

Definition doubleQuote : string := String (ascii_of_nat 34) EmptyString.

(** [a || ''] *)
Definition orEmpty (a : option string) : string :=
  if Js.truthy a then Js.str a else "".

(** The first image part of the first candidate that has one. *)
Fixpoint firstImage (cs : list Candidate) : option InlineData :=
  match cs with
  | [] => None
  | candidate :: rest =>
      let imagePart :=
        match parts candidate with
        | Some ps =>
            find (fun part => match inlineData part with
                              | Some _ => true
                              | None => false
                              end) ps
        | None => None
        end in
      match imagePart with
      | Some part =>
          match inlineData part with
          | Some img => Some img
          | None => firstImage rest
          end
      | None => firstImage rest
      end
  end.

Section Gateway.

Context `{host : Host}.

(** [inl] is the returned data URL, [inr] the message of the thrown
    [Error]. *)
Definition handleApiResponse (response : GenerateContentResponse)
    : string + string :=
  if Js.truthy (blockReason response) then
    inr ("Request was blocked. Reason: " ++ Js.str (blockReason response)
         ++ ". " ++ orEmpty (blockReasonMessage response))
  else
    let cs := match candidates response with Some cs => cs | None => [] end in
    match firstImage cs with
    | Some img =>
        inl ("data:" ++ Js.key_of (mimeType img) ++ ";base64,"
             ++ Js.key_of (data img))
    | None =>
        let finishReason :=
          match hd_error cs with
          | Some c => finishReason c
          | None => None
          end in
        if Js.truthy finishReason && negb (Js.str finishReason =? "STOP") then
          inr ("Image generation stopped unexpectedly. Reason: "
               ++ Js.str finishReason
               ++ ". This often relates to safety settings.")
        else
          let textFeedback := option_map trim (text response) in
          inr ("The AI model did not return an image. "
               ++ (if Js.truthy textFeedback
                   then "The model responded with text: " ++ doubleQuote
                        ++ Js.str textFeedback ++ doubleQuote
                   else "This can happen due to safety filters or if the request is too complex. Please try a different image."))
    end.

End Gateway.

(** ** Forward navigation as the specification words it

    The available poses are the rendered instructions taken in catalog
    order; from a pose that is among them and not the last, go to the next of
    them, otherwise to the next catalog index, cyclically. *)
Definition availableInCatalogOrder (catalog rendered : list string) : list string :=
  filter (fun p => existsb (String.eqb p) rendered) catalog.

Definition cycleNext_spec (catalog rendered : list string)
    (currentGlobalIndex : nat) : option nat :=
  let available := availableInCatalogOrder catalog rendered in
  let fallback := Some ((currentGlobalIndex + 1) mod length catalog) in
  match Js.indexOf available (nth_error catalog currentGlobalIndex) with
  | Some i =>
      if (i + 1 <? length available)%nat
      then Js.indexOf catalog (nth_error available (i + 1))
      else fallback
  | None => fallback
  end.

(** ** A host to run the handlers on examples

    Files without content, thrown values as their messages, and the string
    methods restricted to ASCII. *)
Definition asciiLower (c : ascii) : ascii :=
  let n := nat_of_ascii c in
  if ((65 <=? n) && (n <=? 90))%nat then ascii_of_nat (n + 32) else c.

Fixpoint asciiToLowerCase (s : string) : string :=
  match s with
  | EmptyString => EmptyString
  | String c r => String (asciiLower c) (asciiToLowerCase r)
  end.

Definition asciiSpace (c : ascii) : bool :=
  let n := nat_of_ascii c in
  ((9 <=? n) && (n <=? 13) || (n =? 32))%nat.

Fixpoint trimStart (s : string) : string :=
  match s with
  | EmptyString => EmptyString
  | String c r => if asciiSpace c then trimStart r else s
  end.

Fixpoint trimEnd (s : string) : string :=
  match s with
  | EmptyString => EmptyString
  | String c r =>
      match trimEnd r with
      | EmptyString => if asciiSpace c then EmptyString else String c EmptyString
      | r' => String c r'
      end
  end.

Definition asciiTrim (s : string) : string := trimEnd (trimStart s).

Definition exampleHost : Host :=
  {| File := string;
     Thrown := string;
     toLowerCase := asciiToLowerCase;
     trim := asciiTrim;
     getFriendlyErrorMessage := fun err context => context ++ ". " ++ err |}.

(** ** Predicates on sessions *)

(** The cursor is at the end of a non-empty history. *)
Definition atEnd (s : State) : Prop :=
  currentOutfitIndex s + 1 = length (outfitHistory s).

(** A session that accepts a garment: idle, cursor on the last layer, and
    an image on display. *)
Definition readyAtEnd (s : State) : Prop :=
  isLoading s = false /\ atEnd s /\ Js.truthy (displayImageUrl s) = true.

(** The invariants of the data model: a history exists exactly once a
    model was accepted, the cursor is an index of a non-empty history, the
    pose index is an index of the catalog, and no instruction is empty. *)
Definition wellFormed (s : State) : Prop :=
  (outfitHistory s = [] -> modelImageUrl s = None) /\
  (outfitHistory s = [] /\ currentOutfitIndex s = 0 \/
   currentOutfitIndex s < length (outfitHistory s)) /\
  currentPoseIndex s < length (poseInstructions s) /\
  Forall (fun p => p <> "") (poseInstructions s).


(** ** Example data *)

Definition shirt : WardrobeItem := mkItem "g1" "Shirt" "blob:shirt".
Definition hat : WardrobeItem := mkItem "g2" "Hat" "blob:hat".

(** The session right after the model photo [imgA] was accepted. *)
Definition freshModel : State := handleModelFinalized "imgA" initialState.

(** A session with one garment on, while a second one is being generated. *)
Definition busyDressed : State :=
  {| modelImageUrl := Some "imgA";
     outfitHistory :=
       [ mkLayer None [("Full frontal view, hands on hips", "imgA")];
         mkLayer (Some shirt) [("Full frontal view, hands on hips", "imgB")] ];
     currentOutfitIndex := 1;
     isLoading := true;
     loadingMessage := "Adding Hat...";
     error := None;
     currentPoseIndex := 0;
     poseInstructions := DEFAULT_POSE_INSTRUCTIONS;
     isSheetCollapsed := false;
     wardrobe := (defaultWardrobe ++ [shirt])%list |}.

(** A session whose second layer was rendered in the side view first and in
    the frontal view afterwards; the frontal view is selected. *)
Definition sideThenFront : State :=
  {| modelImageUrl := Some "imgA";
     outfitHistory :=
       [ mkLayer None
           [("Full frontal view, hands on hips", "imgA");
            ("Side profile view", "imgA2")];
         mkLayer (Some shirt)
           [("Side profile view", "imgB2");
            ("Full frontal view, hands on hips", "imgB0")] ];
     currentOutfitIndex := 1;
     isLoading := false;
     loadingMessage := "";
     error := None;
     currentPoseIndex := 0;
     poseInstructions := DEFAULT_POSE_INSTRUCTIONS;
     isSheetCollapsed := false;
     wardrobe := (defaultWardrobe ++ [shirt])%list |}.

(** One garment on, nothing in flight. *)
Definition dressed : State := setLoadingMessage "" (setIsLoading false busyDressed).

(** The garment of [dressed] taken off again: its layer stays behind the
    cursor. *)
Definition undone : State := handleRemoveLastGarment dressed.

(** Two garments to put on a fresh model, with the images the service
    returns for them. *)
Definition twoGarments : list (string * WardrobeItem * string) :=
  [ ("shirt.png", shirt, "imgB"); ("hat.png", hat, "imgC") ].

(** ** The active outfit and the wardrobe panel

    [activeOutfitLayers] and [activeGarmentIds] of [App.tsx], and the click
    handler of [components/WardrobeModal.tsx] up to its download. *)

Definition activeOutfitLayers (s : State) : list OutfitLayer :=
  Js.slice0 (outfitHistory s) (currentOutfitIndex s + 1).

(** [layers.map(layer => layer.garment?.id).filter(Boolean)] *)
Definition activeGarmentIds (s : State) : list string :=
  map Js.str
    (filter Js.truthy
       (map (fun layer => option_map id (garment layer)) (activeOutfitLayers s))).

Inductive GarmentClick :=
| ClickIgnored
| ClickDownload (itemUrl filename : string).
    (* [urlToFile(item.url, item.name)] is awaited, then [onGarmentSelect] *)

Definition handleGarmentClick (isLoading : bool) (activeGarmentIds : list string)
    (item : WardrobeItem) : GarmentClick :=
  if isLoading || existsb (String.eqb (id item)) activeGarmentIds
  then ClickIgnored
  else ClickDownload (url item) (name item).

(** The click as [App] wires the panel. *)
Definition garmentClick (s : State) (item : WardrobeItem) : GarmentClick :=
  handleGarmentClick (isLoading s) (activeGarmentIds s) item.

(** ** Reading a data URL back ([services/geminiService.ts])

    Strings are byte strings holding UTF-8 text; the delimiters below are
    ASCII, so scanning bytes finds them where scanning characters does. *)

(** [s.split(',')] *)
Fixpoint splitComma (s : string) : list string :=
  match s with
  | EmptyString => [EmptyString]
  | String c r =>
      if (c =? ",")%char then EmptyString :: splitComma r
      else match splitComma r with
           | h :: t => String c h :: t
           | [] => [String c EmptyString]
           end
  end.

(** Whether [s] begins with a line terminator, which [.] does not match:
    LF, CR, U+2028 or U+2029. *)
Definition startsLineTerminator (s : string) : bool :=
  match s with
  | String c r =>
      (c =? "010")%char || (c =? "013")%char ||
      match r with
      | String c2 (String c3 _) =>
          (c =? "226")%char && (c2 =? "128")%char &&
          ((c3 =? "168")%char || (c3 =? "169")%char)
      | _ => false
      end
  | EmptyString => false
  end.

(** The shortest run of [.] followed by [;] at the start of [s]. *)
Fixpoint lazyUntilSemicolon (s : string) : option string :=
  match s with
  | EmptyString => None
  | String c r =>
      if (c =? ";")%char then Some EmptyString
      else if startsLineTerminator s then None
      else option_map (String c) (lazyUntilSemicolon r)
  end.

(** [s.match(/:(.*?);/)], as its capture group: the leftmost [:] from which
    the pattern matches. *)
Fixpoint mimeMatch (s : string) : option string :=
  match s with
  | EmptyString => None
  | String c r =>
      if (c =? ":")%char then
        match lazyUntilSemicolon r with
        | Some m => Some m
        | None => mimeMatch r
        end
      else mimeMatch r
  end.

(** [inl] is the pair of MIME type and data, [inr] the message of the thrown
    [Error]. *)
Definition dataUrlToParts (dataUrl : string) : (string * string) + string :=
  match splitComma dataUrl with
  | header :: payload :: _ =>
      match mimeMatch header with
      | Some m =>
          if m =? "" then inr "Could not parse MIME type from data URL"
          else inl (m, payload)
      | None => inr "Could not parse MIME type from data URL"
      end
  | _ => inr "Invalid data URL"
  end.

(** The characters a MIME type must avoid to be read back: [,], [;] and the
    line terminators. *)
Fixpoint plainMime (m : string) : bool :=
  match m with
  | EmptyString => true
  | String c r =>
      negb (c =? ",")%char && negb (c =? ";")%char &&
      negb (startsLineTerminator m) && plainMime r
  end.

Fixpoint noComma (d : string) : bool :=
  match d with
  | EmptyString => true
  | String c r => negb (c =? ",")%char && noComma r
  end.

(** ** More predicates on sessions *)

(** No two catalog entries are equal up to case. *)
Definition caseDistinct `{host : Host} (catalog : list string) : Prop :=
  NoDup (map toLowerCase catalog).

(** Every image of every layer is a non-empty string. *)
Definition imagesPresent (s : State) : Prop :=
  Forall (fun layer => Forall (fun img => img <> "") (Js.values (poseImages layer)))
    (outfitHistory s).

(** Every layer holds at least one image, and no image is the empty
    string. *)
Definition rendered (s : State) : Prop :=
  Forall (fun layer => poseImages layer <> [] /\
                       Forall (fun img => img <> "") (Js.values (poseImages layer)))
    (outfitHistory s).

(** The model image that is accepted, and the image a call returns, are not
    the empty string. *)
Definition bringsImage `{host : Host} (op : Operation) (o : Outcome) : Prop :=
  match op with
  | FinalizeModel url => url <> ""
  | _ => True
  end /\
  match o with
  | Fulfilled newImageUrl => newImageUrl <> ""
  | Rejected _ => True
  end.

(** The message a failed call leaves, by the handler that made it. *)
Definition failureContext (k : Pending) : string :=
  match continuation k with
  | AfterGarmentSelect _ => "Failed to apply garment"
  | AfterPoseSelect _ => "Failed to change pose"
  | AfterCustomPose _ => "Failed to create custom pose"
  | AfterBackgroundChange => "Failed to change background"
  end.

(** A response whose first candidate has only text and whose second one
    has an image after a text part, with a finish reason other than STOP. *)
Definition pngPart : Part :=
  mkPart (Some (mkInlineData (Some "image/png") (Some "iVBOR"))).

Definition imageResponse : GenerateContentResponse :=
  mkResponse None None
    (Some [ mkCandidate (Some [mkPart None]) (Some "STOP");
            mkCandidate (Some [mkPart None; pngPart]) (Some "SAFETY") ])
    (Some "Here you go").

(** The same response for a prompt that was blocked. *)
Definition blockedResponse : GenerateContentResponse :=
  mkResponse (Some "PROHIBITED_CONTENT") None (candidates imageResponse) None.

(** * Properties *)

(** ** Objects and arrays *)

Example set_appends_new_name :
  Js.set [("Side profile view", "a")] "Walking towards camera" "b" =
  [("Side profile view", "a"); ("Walking towards camera", "b")].
Proof. reflexivity. Qed.

Example set_overwrites_in_place :
  Js.set [("Side profile view", "a"); ("Walking towards camera", "b")]
    "Side profile view" "c" =
  [("Side profile view", "c"); ("Walking towards camera", "b")].
Proof. reflexivity. Qed.

Example set_orders_array_indices_first :
  Js.set (Js.set (Js.set [("Side profile view", "a")] "10" "b") "9" "c") "07" "d" =
  [("9", "c"); ("10", "b"); ("Side profile view", "a"); ("07", "d")].
Proof. reflexivity. Qed.

Lemma get_replace_same (o : Js.Obj) (k v x : string) :
  Js.get o k = Some x -> Js.get (Js.replace o k v) k = Some v.
Proof.
  induction o as [|[k' v'] r IH]; simpl; [discriminate|].
  destruct (k' =? k) eqn:E; simpl; rewrite E; auto.
Qed.

Lemma get_replace_other (o : Js.Obj) (k v q : string) :
  q <> k -> Js.get (Js.replace o k v) q = Js.get o q.
Proof.
  intros Hq. induction o as [|[k' v'] r IH]; simpl; [reflexivity|].
  destruct (k' =? k) eqn:E; simpl.
  - apply String.eqb_eq in E. subst k'.
    destruct (k =? q) eqn:E'; [|reflexivity].
    apply String.eqb_eq in E'. congruence.
  - rewrite IH. reflexivity.
Qed.

Lemma get_insert_index_same (o : Js.Obj) (n : N) (k v : string) :
  Js.get o k = None -> Js.get (Js.insert_index o n k v) k = Some v.
Proof.
  induction o as [|[k' v'] r IH]; simpl.
  - rewrite String.eqb_refl. reflexivity.
  - destruct (k' =? k) eqn:E; [discriminate|]. intros Hr.
    destruct (Js.array_index k') as [m|];
      [destruct (m <? n)%N|]; simpl; rewrite ?E, ?String.eqb_refl; auto.
Qed.

Lemma get_insert_index_other (o : Js.Obj) (n : N) (k v q : string) :
  q <> k -> Js.get (Js.insert_index o n k v) q = Js.get o q.
Proof.
  intros Hq. apply not_eq_sym in Hq. apply String.eqb_neq in Hq.
  induction o as [|[k' v'] r IH]; simpl.
  - rewrite Hq. reflexivity.
  - destruct (Js.array_index k') as [m|];
      [destruct (m <? n)%N|]; simpl; rewrite ?Hq, ?IH; reflexivity.
Qed.

Lemma get_app_new (o : Js.Obj) (k v q : string) :
  Js.get (o ++ [(k, v)])%list q =
  match Js.get o q with
  | Some x => Some x
  | None => if k =? q then Some v else None
  end.
Proof.
  induction o as [|[k' v'] r IH]; simpl; [reflexivity|].
  destruct (k' =? q); auto.
Qed.

Lemma get_set_same (o : Js.Obj) (k v : string) :
  Js.get (Js.set o k v) k = Some v.
Proof.
  unfold Js.set. destruct (Js.get o k) as [x|] eqn:E.
  - eapply get_replace_same; eauto.
  - destruct (Js.array_index k).
    + apply get_insert_index_same; assumption.
    + rewrite get_app_new, E, String.eqb_refl. reflexivity.
Qed.

Lemma get_set_other (o : Js.Obj) (k v q : string) :
  q <> k -> Js.get (Js.set o k v) q = Js.get o q.
Proof.
  intros Hq. unfold Js.set. destruct (Js.get o k) as [x|] eqn:E.
  - apply get_replace_other; assumption.
  - destruct (Js.array_index k).
    + apply get_insert_index_other; assumption.
    + rewrite get_app_new. destruct (Js.get o q); [reflexivity|].
      destruct (k =? q) eqn:E'; [|reflexivity].
      apply String.eqb_eq in E'. congruence.
Qed.

Lemma length_update {A} (arr : list A) (i : nat) (f : A -> A) :
  length (Js.update arr i f) = length arr.
Proof.
  revert i. induction arr as [|x r IH]; intros [|j]; simpl; auto.
Qed.

Lemma nth_error_update_same {A} (arr : list A) (i : nat) (f : A -> A) (x : A) :
  nth_error arr i = Some x -> nth_error (Js.update arr i f) i = Some (f x).
Proof.
  revert i. induction arr as [|y r IH]; intros [|j]; simpl; try discriminate.
  - intros [= ->]. reflexivity.
  - apply IH.
Qed.

Lemma nth_error_update_other {A} (arr : list A) (i j : nat) (f : A -> A) :
  j <> i -> nth_error (Js.update arr i f) j = nth_error arr j.
Proof.
  revert i j. induction arr as [|y r IH]; intros [|i] [|j] H; simpl; auto.
  congruence.
Qed.

Lemma findIndex_from_spec {A} (p : A -> bool) (arr : list A) (x : A) (b : nat) :
  In x arr -> p x = true ->
  exists i y, Js.findIndex_from p arr b = Some (b + i) /\
              nth_error arr i = Some y /\ p y = true.
Proof.
  revert b. induction arr as [|z r IH]; intros b Hin Hp; [destruct Hin|].
  simpl. destruct (p z) eqn:E.
  - exists 0, z. rewrite Nat.add_0_r. auto.
  - destruct Hin as [->|Hin]; [congruence|].
    destruct (IH (S b) Hin Hp) as (i & y & H1 & H2 & H3).
    exists (S i), y. rewrite H1. repeat split; auto.
Qed.

Section Session.

Context `{host : Host}.

(** ** What a handler leaves of the state before it awaits *)

Lemma handleGarmentSelect_suspended s f g s1 call k :
  handleGarmentSelect s f g = Suspended s1 call k ->
  isLoading s = false /\ Js.truthy (displayImageUrl s) = true /\
  isCachedNextLayer (nth_error (outfitHistory s) (currentOutfitIndex s + 1)) g = false /\
  s1 = setLoadingMessage ("Adding " ++ name g ++ "...")
         (setIsLoading true (setError None s)) /\
  k = mkPending s (AfterGarmentSelect g).
Proof.
  unfold handleGarmentSelect.
  destruct (Js.truthy (displayImageUrl s)); simpl; [|discriminate].
  destruct (isLoading s); [discriminate|].
  destruct (isCachedNextLayer _ g); [discriminate|].
  intros [= <- <- <-]. auto.
Qed.

Lemma handlePoseSelect_suspended s i s1 call k :
  handlePoseSelect s i = Suspended s1 call k ->
  isLoading s = false /\ i <> currentPoseIndex s /\
  (exists l, nth_error (outfitHistory s) (currentOutfitIndex s) = Some l /\
     Js.truthy (Js.get (poseImages l)
                  (Js.key_of (nth_error (poseInstructions s) i))) = false) /\
  s1 = setCurrentPoseIndex i
         (setLoadingMessage "Changing pose..."
            (setIsLoading true (setError None s))) /\
  k = mkPending s (AfterPoseSelect i).
Proof.
  unfold handlePoseSelect.
  destruct (isLoading s); [discriminate|].
  destruct (length (outfitHistory s) =? 0)%nat; [discriminate|].
  destruct (i =? currentPoseIndex s)%nat eqn:E; [discriminate|]. simpl.
  apply Nat.eqb_neq in E.
  destruct (nth_error (outfitHistory s) (currentOutfitIndex s)) as [l|];
    [|discriminate].
  destruct (Js.truthy (Js.get _ _)) eqn:Ec; [discriminate|].
  destruct (Js.truthy (hd_error _)); simpl; [|discriminate].
  intros [= <- <- <-]. repeat split; eauto.
Qed.

Lemma startBackgroundChange_suspended s mk s1 call k :
  startBackgroundChange s mk = Suspended s1 call k ->
  isLoading s = false /\ Js.truthy (displayImageUrl s) = true /\
  s1 = setLoadingMessage "Changing background..."
         (setIsLoading true (setError None s)) /\
  k = mkPending s AfterBackgroundChange.
Proof.
  unfold startBackgroundChange.
  destruct (isLoading s); [discriminate|].
  destruct (Js.truthy (displayImageUrl s)); simpl; [|discriminate].
  intros [= <- <- <-]. auto.
Qed.

(** ** Single flight *)


(** ** Applying garments *)

Lemma afterGarmentSelect_fulfilled c g newImageUrl s :
  exists s2,
    afterGarmentSelect c g (Fulfilled newImageUrl) s = Some s2 /\
    outfitHistory s2 =
      (firstn (currentOutfitIndex c + 1) (outfitHistory s) ++
       [mkLayer (Some g) [(Js.key_of (currentPoseInstruction c), newImageUrl)]])%list /\
    currentOutfitIndex s2 = currentOutfitIndex s + 1 /\
    isLoading s2 = false /\ error s2 = error s /\
    poseInstructions s2 = poseInstructions s /\
    currentPoseIndex s2 = currentPoseIndex s /\
    modelImageUrl s2 = modelImageUrl s.
Proof. eexists. split; [reflexivity|]. repeat split. Qed.

(** C2.  When [handleGarmentSelect] reaches the image service (no cached
    layer ahead of the cursor) and the call succeeds, the history becomes
    the old history cut after the cursor plus one new layer holding the
    garment and the result under the current pose instruction, and the
    cursor is the old cursor plus one, which is the last index: whatever lay
    beyond the old cursor is gone. *)
Theorem applyGarment_truncates_and_pushes s f g s1 call k newImageUrl :
  currentOutfitIndex s < length (outfitHistory s) ->
  handleGarmentSelect s f g = Suspended s1 call k ->
  exists s2,
    resolve k (Fulfilled newImageUrl) s1 = Some s2 /\
    outfitHistory s2 =
      (firstn (currentOutfitIndex s + 1) (outfitHistory s) ++
       [mkLayer (Some g) [(Js.key_of (currentPoseInstruction s), newImageUrl)]])%list /\
    currentOutfitIndex s2 = currentOutfitIndex s + 1 /\
    currentOutfitIndex s2 = length (outfitHistory s2) - 1 /\
    length (outfitHistory s2) = currentOutfitIndex s + 2.
Proof.
  intros Hcur Hstart.
  destruct (handleGarmentSelect_suspended _ _ _ _ _ _ Hstart)
    as (_ & _ & _ & -> & ->).
  unfold resolve; simpl continuation; simpl closure.
  destruct (afterGarmentSelect_fulfilled s g newImageUrl
              (setLoadingMessage ("Adding " ++ name g ++ "...")
                 (setIsLoading true (setError None s))))
    as (s2 & Hs2 & Hh & Hc & _).
  exists s2. simpl in Hh, Hc. rewrite Hs2, Hh, Hc.
  assert (Hlen : length (firstn (currentOutfitIndex s + 1) (outfitHistory s))
                 = currentOutfitIndex s + 1)
    by (rewrite length_firstn; lia).
  repeat split; rewrite length_app, Hlen; simpl; lia.
Qed.

(** C3.  With a model on display and nothing in flight, if the layer right
    after the cursor exists and carries a garment with the requested id,
    [handleGarmentSelect] returns without calling the image service: the
    cursor is one further, the pose index is 0, and the history is the
    same. *)
Theorem applyGarment_reuses_next_layer s f g l g' :
  isLoading s = false ->
  Js.truthy (displayImageUrl s) = true ->
  nth_error (outfitHistory s) (currentOutfitIndex s + 1) = Some l ->
  garment l = Some g' ->
  id g' = id g ->
  exists s',
    handleGarmentSelect s f g = Returned s' /\
    gatewayCalls (handleGarmentSelect s f g) = 0 /\
    currentOutfitIndex s' = currentOutfitIndex s + 1 /\
    currentPoseIndex s' = 0 /\
    outfitHistory s' = outfitHistory s /\
    length (outfitHistory s') = length (outfitHistory s) /\
    s' = setCurrentPoseIndex 0 (setCurrentOutfitIndex (currentOutfitIndex s + 1) s).
Proof.
  intros Hidle Himg Hnext Hg Hid.
  unfold handleGarmentSelect. rewrite Himg, Hidle, Hnext. simpl.
  rewrite Hg, Hid, String.eqb_refl.
  eexists. repeat split.
Qed.

Lemma applyGarment_step s f g newImageUrl s' :
  applyGarment s f g newImageUrl = Some s' ->
  outfitHistory s' =
    (firstn (currentOutfitIndex s + 1) (outfitHistory s) ++
     [mkLayer (Some g) [(Js.key_of (currentPoseInstruction s), newImageUrl)]])%list /\
  currentOutfitIndex s' = currentOutfitIndex s + 1 /\
  isLoading s' = false /\
  poseInstructions s' = poseInstructions s /\
  currentPoseIndex s' = currentPoseIndex s.
Proof.
  unfold applyGarment.
  destruct (handleGarmentSelect s f g) as [| |s1 call k] eqn:Hstart;
    try discriminate.
  destruct (handleGarmentSelect_suspended _ _ _ _ _ _ Hstart)
    as (_ & _ & _ & -> & ->).
  unfold resolve; simpl. intros [= <-]. repeat split.
Qed.

Lemma applyGarment_atEnd s f g newImageUrl s' :
  atEnd s -> applyGarment s f g newImageUrl = Some s' ->
  atEnd s' /\ currentOutfitIndex s' = currentOutfitIndex s + 1.
Proof.
  unfold atEnd. intros Hend Hstep.
  destruct (applyGarment_step _ _ _ _ _ Hstep) as (Hh & Hc & _).
  rewrite Hh, Hc, length_app, length_firstn. simpl. lia.
Qed.

Lemma applyGarments_atEnd ops : forall s s',
  atEnd s -> applyGarments s ops = Some s' ->
  atEnd s' /\ currentOutfitIndex s' = currentOutfitIndex s + length ops.
Proof.
  induction ops as [|[[f g] img] rest IH]; simpl; intros s s' Hend Hrun.
  - injection Hrun as <-. split; [assumption|lia].
  - destruct (applyGarment s f g img) as [s1|] eqn:Hstep; [|discriminate].
    destruct (applyGarment_atEnd _ _ _ _ _ Hend Hstep) as (Hend1 & Hc1).
    destruct (IH _ _ Hend1 Hrun) as (Hend' & Hc').
    split; [assumption|lia].
Qed.

Lemma displayImageUrl_last_singleton s og key img h :
  outfitHistory s = (h ++ [mkLayer og [(key, img)]])%list ->
  currentOutfitIndex s = length h ->
  displayImageUrl s = Some img.
Proof.
  intros Hh Hc. unfold displayImageUrl. rewrite Hh.
  destruct (h ++ [_])%list eqn:E; [destruct h; discriminate|].
  rewrite <- E, Hc, nth_error_app2, Nat.sub_diag by lia. simpl.
  destruct (key =? _); reflexivity.
Qed.

Lemma applyGarment_ready s f g newImageUrl :
  readyAtEnd s -> newImageUrl <> "" ->
  exists s', applyGarment s f g newImageUrl = Some s' /\ readyAtEnd s'.
Proof.
  intros (Hidle & Hend & Himg) Hne.
  assert (Hstart : exists s1 call k, handleGarmentSelect s f g = Suspended s1 call k).
  { unfold handleGarmentSelect. rewrite Himg, Hidle. simpl.
    assert (Hnone : nth_error (outfitHistory s) (currentOutfitIndex s + 1) = None)
      by (apply nth_error_None; unfold atEnd in Hend; lia).
    rewrite Hnone. simpl. eauto. }
  destruct Hstart as (s1 & call & k & Hstart).
  destruct (handleGarmentSelect_suspended _ _ _ _ _ _ Hstart)
    as (_ & _ & _ & Hs1 & Hk).
  assert (Hrun : exists s', applyGarment s f g newImageUrl = Some s').
  { unfold applyGarment. rewrite Hstart, Hk. unfold resolve. simpl. eauto. }
  destruct Hrun as (s' & Hrun). exists s'. split; [assumption|].
  destruct (applyGarment_step _ _ _ _ _ Hrun) as (Hh & Hc & Hl & _ & _).
  destruct (applyGarment_atEnd _ _ _ _ _ Hend Hrun) as (Hend' & _).
  repeat split; try assumption.
  rewrite (displayImageUrl_last_singleton s' _ _ newImageUrl _ Hh).
  - simpl. apply String.eqb_neq in Hne. rewrite Hne. reflexivity.
  - rewrite Hc, length_firstn. unfold atEnd in Hend. lia.
Qed.

Lemma applyGarments_ready ops : forall s,
  readyAtEnd s -> Forall (fun op => snd op <> "") ops ->
  exists s', applyGarments s ops = Some s'.
Proof.
  induction ops as [|[[f g] img] rest IH]; simpl; intros s Hready Hall.
  - eauto.
  - inversion Hall as [|? ? Hne Hrest]; subst. simpl in Hne.
    destruct (applyGarment_ready s f g img Hready Hne) as (s1 & -> & Hready1).
    apply IH; assumption.
Qed.

Lemma handleModelFinalized_ready url s0 :
  isLoading s0 = false -> url <> "" -> readyAtEnd (handleModelFinalized url s0).
Proof.
  intros Hidle Hne. repeat split; try assumption.
  rewrite (displayImageUrl_last_singleton _ None
             (Js.key_of (nth_error (poseInstructions s0) 0)) url []).
  - simpl. apply String.eqb_neq in Hne. rewrite Hne. reflexivity.
  - reflexivity.
  - reflexivity.
Qed.

(** C4.  [handleModelFinalized] leaves exactly one layer, with no garment
    and the model image under the first pose instruction, and the cursor at
    0.  From there, after N garment applications that each went to the image
    service and succeeded, the cursor is N and the history has N + 1
    layers.  With an idle session, a non-empty model image and non-empty
    results, every such sequence of applications does go through. *)
Theorem applies_from_fresh_model url s0 ops :
  let root := handleModelFinalized url s0 in
  (outfitHistory root =
     [mkLayer None [(Js.key_of (nth_error (poseInstructions s0) 0), url)]] /\
   currentOutfitIndex root = 0) /\
  (forall s', applyGarments root ops = Some s' ->
     currentOutfitIndex s' = length ops /\
     length (outfitHistory s') = length ops + 1) /\
  (isLoading s0 = false -> url <> "" ->
   Forall (fun op => snd op <> "") ops ->
   exists s', applyGarments root ops = Some s').
Proof.
  intros root. split; [split; reflexivity|]. split.
  - intros s' Hrun.
    assert (Hend : atEnd root) by reflexivity.
    destruct (applyGarments_atEnd ops _ _ Hend Hrun) as (Hend' & Hc).
    unfold atEnd in Hend'. simpl in Hc. lia.
  - intros Hidle Hne Hall.
    apply applyGarments_ready; [|assumption].
    apply handleModelFinalized_ready; assumption.
Qed.

(** ** Backgrounds *)

(** C5.  When a background change succeeds, in the layer under the cursor
    the image of the current pose instruction is the new image, the image of
    every other pose instruction and the garment are what they were, and
    every other layer of the history is what it was; the history keeps its
    length, cursor and pose index stay.  Images are strings, so unchanged
    means equal. *)
Theorem changeBackground_overwrites_current_pose_only
    s prompt file r s1 call k newImageUrl l p :
  r = handleBackgroundChange s prompt \/ r = handleBackgroundImageUpload s file ->
  r = Suspended s1 call k ->
  nth_error (outfitHistory s) (currentOutfitIndex s) = Some l ->
  currentPoseInstruction s = Some p ->
  p <> "" ->
  exists s2 l2,
    resolve k (Fulfilled newImageUrl) s1 = Some s2 /\
    nth_error (outfitHistory s2) (currentOutfitIndex s) = Some l2 /\
    Js.get (poseImages l2) p = Some newImageUrl /\
    (forall q, q <> p -> Js.get (poseImages l2) q = Js.get (poseImages l) q) /\
    garment l2 = garment l /\
    (forall i, i <> currentOutfitIndex s ->
       nth_error (outfitHistory s2) i = nth_error (outfitHistory s) i) /\
    length (outfitHistory s2) = length (outfitHistory s) /\
    currentOutfitIndex s2 = currentOutfitIndex s /\
    currentPoseIndex s2 = currentPoseIndex s /\
    poseInstructions s2 = poseInstructions s.
Proof.
  intros Hr Hstart Hl Hp Hne.
  assert (Hs : exists mk, startBackgroundChange s mk = Suspended s1 call k).
  { destruct Hr; subst r; eexists; exact Hstart. }
  destruct Hs as (mk & Hs).
  destruct (startBackgroundChange_suspended _ _ _ _ _ Hs) as (_ & _ & -> & ->).
  unfold resolve, afterBackgroundChange, overwriteCurrentPoseImage, jsonClone.
  simpl. rewrite Hl, Hp.
  assert (Ht : Js.truthy (Some p) = true).
  { simpl. apply String.eqb_neq in Hne. rewrite Hne. reflexivity. }
  rewrite Ht. simpl.
  eexists. eexists. split; [reflexivity|]. simpl.
  split; [apply nth_error_update_same; exact Hl|]. simpl.
  split; [apply get_set_same|].
  split; [intros q Hq; apply get_set_other; exact Hq|].
  split; [reflexivity|].
  split; [intros i Hi; apply nth_error_update_other; exact Hi|].
  split; [apply length_update|].
  repeat split.
Qed.

(** ** Poses *)

(** C6.  With nothing in flight and a history, selecting a pose other than
    the current one whose image the current layer already holds only sets
    the pose index: the handler returns at once, calls nothing, and every
    other part of the state is what it was. *)
Theorem selectPose_cached_is_synchronous s target l instr img :
  isLoading s = false ->
  outfitHistory s <> [] ->
  target <> currentPoseIndex s ->
  nth_error (outfitHistory s) (currentOutfitIndex s) = Some l ->
  nth_error (poseInstructions s) target = Some instr ->
  Js.get (poseImages l) instr = Some img ->
  img <> "" ->
  let s' := setCurrentPoseIndex target s in
  handlePoseSelect s target = Returned s' /\
  gatewayCalls (handlePoseSelect s target) = 0 /\
  currentPoseIndex s' = target /\
  outfitHistory s' = outfitHistory s /\
  currentOutfitIndex s' = currentOutfitIndex s /\
  poseInstructions s' = poseInstructions s /\
  error s' = error s /\
  isLoading s' = isLoading s /\
  loadingMessage s' = loadingMessage s /\
  wardrobe s' = wardrobe s /\
  modelImageUrl s' = modelImageUrl s.
Proof.
  intros Hidle Hhist Hneq Hl Hinstr Himg Hne s'.
  assert (Hstart : handlePoseSelect s target = Returned s').
  { assert (Hlen : (length (outfitHistory s) =? 0)%nat = false)
      by (destruct (outfitHistory s); [congruence|reflexivity]).
    unfold handlePoseSelect. rewrite Hidle.
    apply Nat.eqb_neq in Hneq. rewrite Hlen, Hneq. simpl.
    rewrite Hl, Hinstr. simpl. rewrite Himg. simpl.
    apply String.eqb_neq in Hne. rewrite Hne. reflexivity. }
  rewrite Hstart. repeat split.
Qed.

Lemma afterPoseSelect_rejected c target err s :
  exists s2,
    afterPoseSelect c target (Rejected err) s = Some s2 /\
    currentPoseIndex s2 = currentPoseIndex c /\
    outfitHistory s2 = outfitHistory s /\
    currentOutfitIndex s2 = currentOutfitIndex s /\
    poseInstructions s2 = poseInstructions s /\
    error s2 = Some (getFriendlyErrorMessage err "Failed to change pose") /\
    isLoading s2 = false.
Proof. eexists. split; [reflexivity|]. repeat split. Qed.

(** C7.  When [handlePoseSelect] has called the image service and the call
    fails, the pose index is again what it was before the handler ran,
    having been the target in between; the history, and so the pose images
    of the current layer, are what they were; the error slot holds a
    message; and the loading flag is down.  The pose index is restored and
    the history left alone whatever the state is when the failure arrives. *)
Theorem selectPose_failure_reverts s target s1 call k err :
  handlePoseSelect s target = Suspended s1 call k ->
  (currentPoseIndex s1 = target /\ target <> currentPoseIndex s) /\
  (exists s2,
     complete (handlePoseSelect s target) (Rejected err) = Some s2 /\
     currentPoseIndex s2 = currentPoseIndex s /\
     outfitHistory s2 = outfitHistory s /\
     nth_error (outfitHistory s2) (currentOutfitIndex s2) =
       nth_error (outfitHistory s) (currentOutfitIndex s) /\
     error s2 <> None /\
     isLoading s2 = false) /\
  (forall s', exists s2,
     resolve k (Rejected err) s' = Some s2 /\
     currentPoseIndex s2 = currentPoseIndex s /\
     outfitHistory s2 = outfitHistory s' /\
     error s2 <> None).
Proof.
  intros Hstart.
  destruct (handlePoseSelect_suspended _ _ _ _ _ Hstart)
    as (_ & Hneq & _ & Hs1 & Hk).
  split; [subst s1; split; [reflexivity|assumption]|]. split.
  - rewrite Hstart. simpl. rewrite Hk. unfold resolve. simpl continuation.
    simpl closure.
    destruct (afterPoseSelect_rejected s target err s1)
      as (s2 & -> & Hp & Hh & Hc & _ & He & Hl).
    exists s2. rewrite Hs1 in Hh, Hc. simpl in Hh, Hc.
    repeat split; try assumption.
    + rewrite Hh, Hc. reflexivity.
    + rewrite He. discriminate.
  - intros s'. rewrite Hk. unfold resolve. simpl continuation. simpl closure.
    destruct (afterPoseSelect_rejected s target err s')
      as (s2 & -> & Hp & Hh & _ & _ & He & _).
    exists s2. repeat split; try assumption. rewrite He. discriminate.
Qed.

Lemma handlePoseSelect_keeps_catalog s i :
  poseInstructions (stateOf (handlePoseSelect s i)) = poseInstructions s.
Proof.
  unfold handlePoseSelect.
  repeat match goal with
         | |- context [if ?b then _ else _] => destruct b
         | |- context [match ?x with Some _ => _ | None => _ end] => destruct x
         end; reflexivity.
Qed.

Lemma recordPoseImage_defined c key newImageUrl h l :
  nth_error h (currentOutfitIndex c) = Some l ->
  exists h', recordPoseImage c key newImageUrl h = Some h'.
Proof. intros Hl. unfold recordPoseImage. rewrite Hl. eauto. Qed.

Lemma handlePoseSelect_completes s i o :
  exists s2,
    complete (handlePoseSelect s i) o = Some s2 /\
    poseInstructions s2 = poseInstructions s.
Proof.
  pose proof (handlePoseSelect_keeps_catalog s i) as Hcat.
  destruct (handlePoseSelect s i) as [s'|s'|s1 call k] eqn:Hstart; simpl in *.
  - eauto.
  - eauto.
  - destruct (handlePoseSelect_suspended _ _ _ _ _ Hstart)
      as (_ & _ & (l & Hl & _) & Hs1 & Hk).
    rewrite Hk. unfold resolve. simpl continuation. simpl closure.
    destruct o as [newImageUrl|err]; simpl.
    + destruct (recordPoseImage_defined s
                  (Js.key_of (nth_error (poseInstructions s) i)) newImageUrl
                  (outfitHistory s1) l) as (h' & ->).
      { rewrite Hs1. exact Hl. }
      eexists. split; [reflexivity|]. exact Hcat.
    + eexists. split; [reflexivity|]. exact Hcat.
Qed.

Lemma complete_callUnawaited r o :
  complete (callUnawaited r) o = complete r o.
Proof. destruct r; reflexivity. Qed.

(** ** Custom poses *)

(** C8.  When the trimmed text equals a catalog entry up to case,
    [handleCustomPoseGenerate] finds the first such entry; once past its
    entry test (text not blank, nothing in flight, an image on display) it
    does exactly what [handlePoseSelect] does for that index; and however
    the call it may make ends, the catalog, and so its length, are what
    they were. *)
Theorem customPose_existing_entry_not_appended s text entry :
  In entry (poseInstructions s) ->
  toLowerCase entry = toLowerCase (trim text) ->
  exists i matched,
    Js.findIndex (fun p => toLowerCase p =? toLowerCase (trim text))
      (poseInstructions s) = Some i /\
    nth_error (poseInstructions s) i = Some matched /\
    toLowerCase matched = toLowerCase (trim text) /\
    (trim text <> "" -> isLoading s = false ->
     Js.truthy (displayImageUrl s) = true ->
     handleCustomPoseGenerate s text = callUnawaited (handlePoseSelect s i)) /\
    poseInstructions (stateOf (handleCustomPoseGenerate s text)) =
      poseInstructions s /\
    (forall o, exists s2,
       complete (handleCustomPoseGenerate s text) o = Some s2 /\
       poseInstructions s2 = poseInstructions s /\
       length (poseInstructions s2) = length (poseInstructions s)).
Proof.
  intros Hin Hmatch.
  destruct (findIndex_from_spec
              (fun p => toLowerCase p =? toLowerCase (trim text))
              (poseInstructions s) entry 0 Hin)
    as (i & matched & Hfind & Hnth & Hp).
  { apply String.eqb_eq. exact Hmatch. }
  simpl in Hfind. apply String.eqb_eq in Hp.
  exists i, matched.
  assert (Hcases : handleCustomPoseGenerate s text = Returned s \/
                   handleCustomPoseGenerate s text =
                     callUnawaited (handlePoseSelect s i)).
  { unfold handleCustomPoseGenerate, Js.findIndex. rewrite Hfind.
    destruct (_ || _ || _); auto. }
  split; [exact Hfind|]. split; [exact Hnth|]. split; [exact Hp|]. split.
  - intros Hne Hidle Himg. unfold handleCustomPoseGenerate, Js.findIndex.
    apply String.eqb_neq in Hne. rewrite Hne, Hidle, Himg, Hfind. reflexivity.
  - split.
    + destruct Hcases as [-> | ->]; [reflexivity|].
      rewrite <- (handlePoseSelect_keeps_catalog s i).
      destruct (handlePoseSelect s i); reflexivity.
    + intros o. destruct Hcases as [-> | ->].
      * exists s. simpl. auto.
      * rewrite complete_callUnawaited.
        destruct (handlePoseSelect_completes s i o) as (s2 & Hc & Hcat).
        exists s2. rewrite Hcat. auto.
Qed.

(** ** Forward navigation *)

Lemma indexOf_from_found arr x b i :
  Js.indexOf_from arr x b = Some i ->
  b <= i /\ nth_error arr (i - b) = Some x.
Proof.
  revert b. induction arr as [|y r IH]; simpl; intros b; [discriminate|].
  destruct (y =? x) eqn:E.
  - intros [= <-]. rewrite Nat.sub_diag. apply String.eqb_eq in E.
    subst. auto.
  - intros H. destruct (IH _ H) as (Hle & Hn). split; [lia|].
    replace (i - b) with (S (i - S b)) by lia. exact Hn.
Qed.

Lemma indexOf_from_In arr x b :
  In x arr -> exists i, Js.indexOf_from arr x b = Some i.
Proof.
  revert b. induction arr as [|y r IH]; simpl; intros b Hin; [destruct Hin|].
  destruct (y =? x) eqn:E; [eauto|].
  destruct Hin as [->|Hin]; [rewrite String.eqb_refl in E; discriminate|].
  apply IH; assumption.
Qed.

Lemma indexOf_from_absent arr x b :
  ~ In x arr -> Js.indexOf_from arr x b = None.
Proof.
  intros Hnot. destruct (Js.indexOf_from arr x b) as [i|] eqn:E; [|reflexivity].
  exfalso. apply Hnot. destruct (indexOf_from_found _ _ _ _ E) as (_ & Hn).
  eapply nth_error_In; eauto.
Qed.

Lemma selectRem_nonempty a (catalog : list string) :
  catalog <> [] -> selectRem a (length catalog) = onSelectPose (a mod length catalog).
Proof.
  intros Hne. unfold selectRem, Js.rem.
  destruct catalog; [congruence|]. reflexivity.
Qed.

(** C9, as amended.  The available poses are the keys of the current
    layer's pose images in the object's own key order (the order in which
    they were rendered), not in catalog order.  With nothing in flight and
    a non-empty catalog: from a current instruction found among them with a
    successor, the arrow selects the catalog index of that successor (and
    does nothing when the successor is not in the catalog); from their last
    element, from an instruction not among them, or when there are none, it
    selects (current index + 1) mod catalog length. *)
Theorem handleNextPose_follows_key_order keys catalog cur :
  catalog <> [] ->
  let target := handleNextPose false keys catalog cur in
  let fallback := onSelectPose ((cur + 1) mod length catalog) in
  (forall instr i next,
     nth_error catalog cur = Some instr ->
     Js.indexOf keys (Some instr) = Some i ->
     nth_error keys (i + 1) = Some next ->
     (In next catalog ->
      exists j, target = onSelectPose j /\ nth_error catalog j = Some next) /\
     (~ In next catalog -> target = NoCall)) /\
  (forall instr i,
     nth_error catalog cur = Some instr ->
     Js.indexOf keys (Some instr) = Some i ->
     i + 1 = length keys ->
     target = fallback) /\
  (forall instr,
     nth_error catalog cur = Some instr -> ~ In instr keys -> target = fallback) /\
  (keys = [] -> target = fallback) /\
  (forall s l,
     nth_error (outfitHistory s) (currentOutfitIndex s) = Some l ->
     nextPoseTarget s =
       handleNextPose (isLoading s) (Js.keys (poseImages l))
         (poseInstructions s) (currentPoseIndex s)).
Proof.
  intros Hne target fallback. subst target fallback.
  pose proof (selectRem_nonempty (cur + 1) catalog Hne) as Hrem.
  unfold handleNextPose. simpl. rewrite Hrem.
  split; [|split; [|split; [|split]]].
  - intros instr i next Hcur Hidx Hnext. rewrite Hcur. simpl. rewrite Hidx.
    assert (Hlt : i + 1 < length keys)
      by (apply nth_error_Some; congruence).
    assert (Hlen : (length keys =? 0)%nat = false)
      by (apply Nat.eqb_neq; lia).
    apply Nat.ltb_lt in Hlt. rewrite Hlen, Hlt, Hnext. simpl. split.
    + intros Hin. destruct (indexOf_from_In catalog next 0 Hin) as (j & Hj).
      rewrite Hj. exists j. split; [reflexivity|].
      destruct (indexOf_from_found _ _ _ _ Hj) as (_ & Hn).
      rewrite Nat.sub_0_r in Hn. exact Hn.
    + intros Hnot. rewrite (indexOf_from_absent _ _ 0 Hnot). reflexivity.
  - intros instr i Hcur Hidx Hlast. rewrite Hcur. simpl. rewrite Hidx.
    destruct (length keys =? 0)%nat; [reflexivity|].
    assert (Hge : (i + 1 <? length keys)%nat = false)
      by (apply Nat.ltb_ge; lia).
    rewrite Hge. reflexivity.
  - intros instr Hcur Hnot. rewrite Hcur. simpl.
    rewrite (indexOf_from_absent _ _ 0 Hnot). reflexivity.
  - intros ->. destruct (nth_error catalog cur); reflexivity.
  - intros s l Hl. unfold nextPoseTarget, availablePoseKeys. rewrite Hl.
    destruct (outfitHistory s) eqn:E; [|reflexivity].
    destruct (currentOutfitIndex s); discriminate.
Qed.

(** ** The error slot *)



(** ** Images returned by the service *)

(** Whatever the response, an image [handleApiResponse] returns is a data
    URL, so it is not the empty string. *)
Lemma handleApiResponse_image response newImageUrl :
  handleApiResponse response = inl newImageUrl ->
  newImageUrl <> "" /\ exists rest, newImageUrl = "data:" ++ rest.
Proof.
  unfold handleApiResponse.
  destruct (Js.truthy (blockReason response)); [discriminate|].
  destruct (firstImage _) as [img|].
  - intros [= <-]. split; [discriminate|]. eexists. reflexivity.
  - destruct (_ && _); discriminate.
Qed.



Lemma findIndex_from_none {A} (p : A -> bool) (arr : list A) b :
  Js.findIndex_from p arr b = None -> forall x, In x arr -> p x = false.
Proof.
  revert b. induction arr as [|y r IH]; simpl; intros b H x Hin; [destruct Hin|].
  destruct (p y) eqn:E; [discriminate|].
  destruct Hin as [<-|Hin]; [exact E|eauto].
Qed.

Lemma filter_all {A} (f : A -> bool) (l : list A) :
  (forall x, In x l -> f x = true) -> filter f l = l.
Proof.
  induction l as [|y r IH]; simpl; intros H; [reflexivity|].
  rewrite (H y) by auto. f_equal. apply IH. auto.
Qed.

(** A prompt that matches no entry up to case is no entry, so taking it
    out again after a failure gives back the catalog. *)
Lemma revert_append catalog t :
  Js.findIndex (fun p => toLowerCase p =? toLowerCase t) catalog = None ->
  filter (fun p => negb (p =? t)) (catalog ++ [t])%list = catalog.
Proof.
  intros Hnone. rewrite filter_app. simpl. rewrite String.eqb_refl. simpl.
  rewrite app_nil_r. apply filter_all. intros x Hin.
  pose proof (findIndex_from_none _ _ _ Hnone x Hin) as Hx. simpl in Hx.
  destruct (x =? t) eqn:E; [|reflexivity].
  apply String.eqb_eq in E. subst x. rewrite String.eqb_refl in Hx.
  discriminate.
Qed.


Lemma wellFormed_catalog s : wellFormed s -> 0 < length (poseInstructions s).
Proof. intros (_ & _ & Hp & _). lia. Qed.







Lemma wellFormed_initialState : wellFormed initialState.
Proof.
  repeat split; simpl; auto; try lia. repeat constructor; discriminate.
Qed.

End Session.

(** * The properties on the example sessions *)

Lemma busyDressed_reached :
  exists s1 call k,
    applyGarment (host:=exampleHost) freshModel "shirt.png" shirt "imgB" = Some s1 /\
    handleGarmentSelect (host:=exampleHost) s1 "hat.png" hat =
      Suspended busyDressed call k.
Proof. do 3 eexists. split; vm_compute; reflexivity. Qed.

Lemma sideThenFront_reached :
  exists s1 s2,
    complete (host:=exampleHost) (handlePoseSelect freshModel 2)
      (Fulfilled "imgA2") = Some s1 /\
    applyGarment (host:=exampleHost) s1 "shirt.png" shirt "imgB2" = Some s2 /\
    complete (host:=exampleHost) (handlePoseSelect s2 0)
      (Fulfilled "imgB0") = Some sideThenFront.
Proof. do 2 eexists. repeat split; vm_compute; reflexivity. Qed.


(** What that leads to: when the pending application then succeeds, its
    layer is added at index 2 but the cursor ends on index 1. *)
Example removeLastGarment_while_busy_then_resolved :
  exists s2,
    resolve (host:=exampleHost) (mkPending dressed (AfterGarmentSelect hat))
      (Fulfilled "imgC") (handleRemoveLastGarment busyDressed) = Some s2 /\
    length (outfitHistory s2) = 3 /\ currentOutfitIndex s2 = 1.
Proof. eexists. repeat split. Qed.


Lemma applyGarment_truncates_and_pushes_witness :
  currentOutfitIndex undone < length (outfitHistory undone) /\
  exists s2,
    complete (host:=exampleHost)
      (handleGarmentSelect (host:=exampleHost) undone "hat.png" hat)
      (Fulfilled "imgC") = Some s2 /\
    outfitHistory s2 =
      [ mkLayer None [("Full frontal view, hands on hips", "imgA")];
        mkLayer (Some hat) [("Full frontal view, hands on hips", "imgC")] ] /\
    currentOutfitIndex s2 = 1.
Proof.
  split; [vm_compute; lia|].
  destruct (applyGarment_truncates_and_pushes (host:=exampleHost)
              undone "hat.png" hat _ _ _ "imgC"
              ltac:(vm_compute; lia) eq_refl)
    as (s2 & Hs2 & Hh & Hc & _).
  exists s2. split; [exact Hs2|]. split; [exact Hh|exact Hc].
Defined.

Lemma applyGarment_reuses_next_layer_witness :
  isLoading undone = false /\
  Js.truthy (displayImageUrl undone) = true /\
  exists s',
    handleGarmentSelect (host:=exampleHost) undone "shirt.png" shirt = Returned s' /\
    currentOutfitIndex s' = 1 /\ currentPoseIndex s' = 0 /\
    outfitHistory s' = outfitHistory undone.
Proof.
  split; [reflexivity|]. split; [reflexivity|].
  destruct (applyGarment_reuses_next_layer (host:=exampleHost)
              undone "shirt.png" shirt
              (mkLayer (Some shirt) [("Full frontal view, hands on hips", "imgB")])
              shirt eq_refl eq_refl eq_refl eq_refl eq_refl)
    as (s' & Hs' & _ & Hc & Hp & Hh & _).
  exists s'. repeat split; assumption.
Defined.

Lemma applies_from_fresh_model_witness :
  exists s',
    applyGarments (host:=exampleHost) freshModel twoGarments = Some s' /\
    currentOutfitIndex s' = 2 /\ length (outfitHistory s') = 3.
Proof.
  destruct (applies_from_fresh_model (host:=exampleHost)
              "imgA" initialState twoGarments)
    as (_ & Hcount & Htotal).
  destruct Htotal as (s' & Hs').
  - reflexivity.
  - discriminate.
  - repeat constructor; discriminate.
  - exists s'. split; [exact Hs'|]. apply Hcount. exact Hs'.
Defined.

Lemma changeBackground_overwrites_current_pose_only_witness :
  nth_error (outfitHistory sideThenFront) (currentOutfitIndex sideThenFront) =
    Some (mkLayer (Some shirt)
            [("Side profile view", "imgB2");
             ("Full frontal view, hands on hips", "imgB0")]) /\
  currentPoseInstruction sideThenFront = Some "Full frontal view, hands on hips" /\
  exists s2 l2,
    complete (host:=exampleHost)
      (handleBackgroundChange (host:=exampleHost) sideThenFront "A serene beach")
      (Fulfilled "imgBeach") = Some s2 /\
    nth_error (outfitHistory s2) 1 = Some l2 /\
    Js.get (poseImages l2) "Full frontal view, hands on hips" = Some "imgBeach" /\
    Js.get (poseImages l2) "Side profile view" = Some "imgB2" /\
    nth_error (outfitHistory s2) 0 = nth_error (outfitHistory sideThenFront) 0.
Proof.
  split; [reflexivity|]. split; [reflexivity|].
  destruct (changeBackground_overwrites_current_pose_only (host:=exampleHost)
              sideThenFront "A serene beach" "beach.png"
              (handleBackgroundChange (host:=exampleHost) sideThenFront "A serene beach")
              _ _ _ "imgBeach" _ "Full frontal view, hands on hips"
              (or_introl eq_refl) eq_refl eq_refl eq_refl
              ltac:(discriminate))
    as (s2 & l2 & Hs2 & Hl2 & Hnew & Hother & _ & Hlayers & _).
  exists s2, l2. split; [exact Hs2|]. split; [exact Hl2|].
  split; [exact Hnew|]. split.
  - rewrite Hother by discriminate. reflexivity.
  - apply Hlayers. vm_compute. lia.
Defined.

Lemma selectPose_cached_is_synchronous_witness :
  isLoading sideThenFront = false /\
  outfitHistory sideThenFront <> [] /\
  2 <> currentPoseIndex sideThenFront /\
  handlePoseSelect (host:=exampleHost) sideThenFront 2 =
    Returned (setCurrentPoseIndex 2 sideThenFront) /\
  gatewayCalls (handlePoseSelect (host:=exampleHost) sideThenFront 2) = 0.
Proof.
  split; [reflexivity|]. split; [discriminate|]. split; [discriminate|].
  destruct (selectPose_cached_is_synchronous (host:=exampleHost)
              sideThenFront 2
              (mkLayer (Some shirt)
                 [("Side profile view", "imgB2");
                  ("Full frontal view, hands on hips", "imgB0")])
              "Side profile view" "imgB2"
              eq_refl ltac:(discriminate) ltac:(discriminate)
              eq_refl eq_refl eq_refl ltac:(discriminate))
    as (Hstart & Hcalls & _).
  split; [exact Hstart|exact Hcalls].
Defined.

Lemma selectPose_failure_reverts_witness :
  exists s1 call k s2,
    handlePoseSelect (host:=exampleHost) freshModel 1 = Suspended s1 call k /\
    currentPoseIndex s1 = 1 /\
    complete (host:=exampleHost) (handlePoseSelect (host:=exampleHost) freshModel 1)
      (Rejected (host:=exampleHost) "quota exceeded") = Some s2 /\
    currentPoseIndex s2 = 0 /\
    outfitHistory s2 = outfitHistory freshModel /\
    error s2 <> None.
Proof.
  do 3 eexists.
  destruct (selectPose_failure_reverts (host:=exampleHost)
              freshModel 1 _ _ _ "quota exceeded" eq_refl)
    as ((Hopt & _) & (s2 & Hs2 & Hp & Hh & _ & He & _) & _).
  exists s2. split; [reflexivity|]. split; [exact Hopt|].
  split; [exact Hs2|]. split; [exact Hp|]. split; [exact Hh|exact He].
Defined.

Lemma customPose_existing_entry_not_appended_witness :
  In "Side profile view" (poseInstructions freshModel) /\
  asciiToLowerCase "Side profile view" =
    asciiToLowerCase (asciiTrim "  side PROFILE VIEW ") /\
  (handleCustomPoseGenerate (host:=exampleHost) freshModel "  side PROFILE VIEW " =
     handlePoseSelect (host:=exampleHost) freshModel 2) /\
  forall o, exists s2,
    complete (host:=exampleHost)
      (handleCustomPoseGenerate (host:=exampleHost) freshModel "  side PROFILE VIEW ")
      o = Some s2 /\
    length (poseInstructions s2) = 6.
Proof.
  assert (Hin : In "Side profile view" (poseInstructions freshModel))
    by (simpl; auto).
  split; [exact Hin|]. split; [reflexivity|].
  destruct (customPose_existing_entry_not_appended (host:=exampleHost)
              freshModel "  side PROFILE VIEW " "Side profile view" Hin eq_refl)
    as (i & matched & Hfind & _ & _ & _ & _ & Hcat).
  split; [reflexivity|].
  intros o. destruct (Hcat o) as (s2 & Hs2 & _ & Hlen).
  exists s2. split; [exact Hs2|exact Hlen].
Defined.

(** C9 fails with the available poses taken in catalog order.  In
    [sideThenFront] the current layer was rendered in the side view first and
    in the frontal view second, and the frontal view (index 0) is selected.
    In catalog order the frontal view is followed by the side view (index
    2); the arrow selects index 1 instead, because among the layer's keys
    the frontal view comes last. *)
Lemma nextPose_not_in_catalog_order :
  isLoading sideThenFront = false /\
  availablePoseKeys sideThenFront =
    ["Side profile view"; "Full frontal view, hands on hips"] /\
  availableInCatalogOrder (poseInstructions sideThenFront)
    (availablePoseKeys sideThenFront) =
    ["Full frontal view, hands on hips"; "Side profile view"] /\
  cycleNext_spec (poseInstructions sideThenFront)
    (availablePoseKeys sideThenFront) (currentPoseIndex sideThenFront) = Some 2 /\
  nextPoseTarget sideThenFront = onSelectPose 1.
Proof. repeat split. Qed.

Lemma handleNextPose_follows_key_order_witness :
  DEFAULT_POSE_INSTRUCTIONS <> [] /\
  (exists j,
     handleNextPose false
       ["Side profile view"; "Full frontal view, hands on hips"]
       DEFAULT_POSE_INSTRUCTIONS 2 = onSelectPose j /\
     nth_error DEFAULT_POSE_INSTRUCTIONS j =
       Some "Full frontal view, hands on hips") /\
  handleNextPose false
    ["Side profile view"; "Full frontal view, hands on hips"]
    DEFAULT_POSE_INSTRUCTIONS 0 = onSelectPose 1.
Proof.
  assert (Hne : DEFAULT_POSE_INSTRUCTIONS <> []) by discriminate.
  split; [exact Hne|]. split.
  - destruct (handleNextPose_follows_key_order
                ["Side profile view"; "Full frontal view, hands on hips"]
                DEFAULT_POSE_INSTRUCTIONS 2 Hne)
      as (Hnext & _).
    destruct (Hnext "Side profile view" 0 "Full frontal view, hands on hips"
                eq_refl eq_refl eq_refl) as (Hin & _).
    apply Hin. simpl. auto.
  - destruct (handleNextPose_follows_key_order
                ["Side profile view"; "Full frontal view, hands on hips"]
                DEFAULT_POSE_INSTRUCTIONS 0 Hne)
      as (_ & Hlast & _).
    apply (Hlast "Full frontal view, hands on hips" 1 eq_refl eq_refl eq_refl).
Defined.


(** The session of the specification's scenario: accept the model, put a
    garment on, take it off, put it on again. *)
Example scenario_reuse_after_removal :
  outfitHistory freshModel =
    [ mkLayer None [("Full frontal view, hands on hips", "imgA")] ] /\
  currentOutfitIndex freshModel = 0 /\
  applyGarment (host:=exampleHost) freshModel "fileX" shirt "imgB" = Some dressed /\
  length (outfitHistory dressed) = 2 /\ currentOutfitIndex dressed = 1 /\
  length (outfitHistory undone) = 2 /\ currentOutfitIndex undone = 0 /\
  handleGarmentSelect (host:=exampleHost) undone "fileX" shirt = Returned dressed.
Proof. repeat split. Qed.

Example blocked_response_is_an_error :
  handleApiResponse (host:=exampleHost)
    (mkResponse (Some "SAFETY") None None None) =
  inr "Request was blocked. Reason: SAFETY. ".
Proof. reflexivity. Qed.

Example image_response_is_a_data_url :
  handleApiResponse (host:=exampleHost)
    (mkResponse None None
       (Some [ mkCandidate
                 (Some [ mkPart None;
                         mkPart (Some (mkInlineData (Some "image/png") (Some "iVBOR"))) ])
                 (Some "STOP") ])
       None) =
  inl "data:image/png;base64,iVBOR".
Proof. reflexivity. Qed.

(** * Further properties of the handlers *)

Section Outcomes.

Context `{host : Host}.

(** ** Full inversion of the suspending handlers *)

Lemma handlePoseSelect_call s i s1 call k :
  handlePoseSelect s i = Suspended s1 call k ->
  exists l base,
    isLoading s = false /\
    nth_error (outfitHistory s) (currentOutfitIndex s) = Some l /\
    Js.truthy (Js.get (poseImages l)
                 (Js.key_of (nth_error (poseInstructions s) i))) = false /\
    hd_error (Js.values (poseImages l)) = Some base /\ base <> "" /\
    call = generatePoseVariation base (nth_error (poseInstructions s) i) /\
    s1 = setCurrentPoseIndex i
           (setLoadingMessage "Changing pose..."
              (setIsLoading true (setError None s))) /\
    k = mkPending s (AfterPoseSelect i).
Proof.
  unfold handlePoseSelect.
  destruct (isLoading s); [discriminate|].
  destruct (_ || _ || _); [discriminate|].
  destruct (nth_error (outfitHistory s) (currentOutfitIndex s)) as [l|];
    [|discriminate].
  destruct (Js.truthy (Js.get _ _)) eqn:Ec; [discriminate|].
  destruct (hd_error (Js.values (poseImages l))) as [base|] eqn:Hb;
    simpl; [|discriminate].
  destruct (base =? "") eqn:Hne; simpl; [discriminate|].
  apply String.eqb_neq in Hne.
  intros [= <- <- <-]. exists l, base. repeat split; auto.
Qed.

Lemma handleCustomPoseGenerate_call s text s1 call k :
  handleCustomPoseGenerate s text = Suspended s1 call k ->
  (exists i,
     Js.findIndex (fun p => toLowerCase p =? toLowerCase (trim text))
       (poseInstructions s) = Some i /\
     handlePoseSelect s i = Suspended s1 call k) \/
  (exists l base,
     Js.findIndex (fun p => toLowerCase p =? toLowerCase (trim text))
       (poseInstructions s) = None /\
     trim text <> "" /\ isLoading s = false /\
     nth_error (outfitHistory s) (currentOutfitIndex s) = Some l /\
     hd_error (Js.values (poseImages l)) = Some base /\ base <> "" /\
     call = generatePoseVariation base (Some (trim text)) /\
     s1 = setCurrentPoseIndex (length (poseInstructions s))
            (setPoseInstructions (poseInstructions s ++ [trim text])%list
               (setLoadingMessage "Creating custom pose..."
                  (setIsLoading true (setError None s)))) /\
     k = mkPending s (AfterCustomPose (trim text))).
Proof.
  unfold handleCustomPoseGenerate.
  destruct (trim text =? "") eqn:Hblank; simpl; [discriminate|].
  destruct (isLoading s); simpl; [discriminate|].
  destruct (Js.truthy (displayImageUrl s)); simpl; [|discriminate].
  destruct (Js.findIndex _ _) as [i|] eqn:Hfind.
  - intros H. left. exists i. split; [reflexivity|].
    destruct (handlePoseSelect s i); simpl in H; try discriminate. exact H.
  - destruct (nth_error (outfitHistory s) (currentOutfitIndex s)) as [l|];
      [|discriminate].
    destruct (hd_error (Js.values (poseImages l))) as [base|] eqn:Hb;
      simpl; [|discriminate].
    destruct (base =? "") eqn:Hne; simpl; [discriminate|].
    apply String.eqb_neq in Hne. apply String.eqb_neq in Hblank.
    intros [= <- <- <-]. right. exists l, base. repeat split; auto.
Qed.

Lemma state_with_flag_down s msg :
  isLoading s = false ->
  setLoadingMessage "" (setIsLoading false (setError msg s)) =
  setLoadingMessage "" (setError msg s).
Proof. destruct s; simpl. intros ->. reflexivity. Qed.

(** ** Failure *)

(** Whichever handler made the call, when the call fails the session is
    what it was when the handler was invoked, except that the error slot
    holds the message for that handler and the loading message is empty:
    history, cursor, wardrobe, catalog and pose index are restored or
    untouched, and the loading flag is down again. *)
Theorem failed_call_restores_state s op s1 call k err :
  invoke s op = Suspended s1 call k ->
  isLoading s = false /\
  resolve k (Rejected err) s1 =
    Some (setLoadingMessage ""
            (setError (Some (getFriendlyErrorMessage err (failureContext k))) s)).
Proof.
  assert (Hpose : forall i, handlePoseSelect s i = Suspended s1 call k ->
            isLoading s = false /\
            resolve k (Rejected err) s1 =
              Some (setLoadingMessage ""
                      (setError (Some (getFriendlyErrorMessage err
                                         (failureContext k))) s))).
  { intros i Hstart.
    destruct (handlePoseSelect_call _ _ _ _ _ Hstart)
      as (l & base & Hidle & _ & _ & _ & _ & _ & -> & ->).
    split; [exact Hidle|].
    unfold resolve, afterPoseSelect, failureContext, finallyIdle, catchError.
    simpl. f_equal. destruct s; simpl in *. subst. reflexivity. }
  assert (Hbg : forall mk, startBackgroundChange s mk = Suspended s1 call k ->
            isLoading s = false /\
            resolve k (Rejected err) s1 =
              Some (setLoadingMessage ""
                      (setError (Some (getFriendlyErrorMessage err
                                         (failureContext k))) s))).
  { intros mk Hstart.
    destruct (startBackgroundChange_suspended _ _ _ _ _ Hstart)
      as (Hidle & _ & -> & ->).
    split; [exact Hidle|].
    unfold resolve, afterBackgroundChange, failureContext, finallyIdle, catchError.
    simpl. f_equal. destruct s; simpl in *. subst. reflexivity. }
  destruct op as [url| |f g| |i|text|prompt|file]; simpl;
    try discriminate; intros Hstart.
  - destruct (handleGarmentSelect_suspended _ _ _ _ _ _ Hstart)
      as (Hidle & _ & _ & -> & ->).
    split; [exact Hidle|].
    unfold resolve, afterGarmentSelect, failureContext, finallyIdle, catchError.
    simpl. f_equal. destruct s; simpl in *. subst. reflexivity.
  - eapply Hpose; eassumption.
  - destruct (handleCustomPoseGenerate_call _ _ _ _ _ Hstart)
      as [(i & _ & Hi) | (l & base & Hfind & _ & Hidle & _ & _ & _ & _ & -> & ->)].
    + eapply Hpose; eassumption.
    + split; [exact Hidle|].
      unfold resolve, afterCustomPose, failureContext, finallyIdle, catchError.
      simpl. rewrite (revert_append _ _ Hfind).
      f_equal. destruct s; simpl in *. subst. reflexivity.
  - eapply Hbg; eassumption.
  - eapply Hbg; eassumption.
Qed.

(** ** Success *)




End Outcomes.

Section Composition.

Context `{host : Host}.

(** ** Undo and redo *)

(** Taking the top garment off and putting the same garment on again calls
    nothing and gives back the session as it was, with the pose index at 0:
    the layer, with all the poses rendered for it, is reused. *)
Theorem remove_then_reapply_restores s f g l g' :
  isLoading s = false ->
  0 < currentOutfitIndex s ->
  nth_error (outfitHistory s) (currentOutfitIndex s) = Some l ->
  garment l = Some g' ->
  id g' = id g ->
  Js.truthy (displayImageUrl (handleRemoveLastGarment s)) = true ->
  handleGarmentSelect (handleRemoveLastGarment s) f g =
    Returned (setCurrentPoseIndex 0 s).
Proof.
  intros Hidle Hpos Hl Hg Hid Hd.
  assert (Hu : handleRemoveLastGarment s =
               setCurrentPoseIndex 0
                 (setCurrentOutfitIndex (currentOutfitIndex s - 1) s)).
  { unfold handleRemoveLastGarment.
    apply Nat.ltb_lt in Hpos. rewrite Hpos. reflexivity. }
  unfold handleGarmentSelect. rewrite Hd. rewrite Hu. simpl.
  rewrite Hidle.
  replace (currentOutfitIndex s - 1 + 1) with (currentOutfitIndex s) by lia.
  rewrite Hl. simpl. rewrite Hg, Hid, String.eqb_refl.
  reflexivity.
Qed.

(** ** New poses *)

(** When a pose request succeeds, the pose index is the requested one, the
    current layer holds the returned image under the requested instruction
    and its other images as before, and the other layers are untouched.
    From then on, coming back to that pose from any other one is
    immediate and calls nothing. *)
Theorem selectPose_success_caches s target s1 call k newImageUrl :
  handlePoseSelect s target = Suspended s1 call k ->
  exists s2 l l2,
    resolve k (Fulfilled newImageUrl) s1 = Some s2 /\
    currentPoseIndex s2 = target /\
    nth_error (outfitHistory s) (currentOutfitIndex s) = Some l /\
    nth_error (outfitHistory s2) (currentOutfitIndex s2) = Some l2 /\
    Js.get (poseImages l2) (Js.key_of (nth_error (poseInstructions s) target))
      = Some newImageUrl /\
    (forall q, q <> Js.key_of (nth_error (poseInstructions s) target) ->
       Js.get (poseImages l2) q = Js.get (poseImages l) q) /\
    (forall i, i <> currentOutfitIndex s ->
       nth_error (outfitHistory s2) i = nth_error (outfitHistory s) i) /\
    (newImageUrl <> "" ->
     forall other, other <> target ->
       handlePoseSelect (setCurrentPoseIndex other s2) target =
         Returned (setCurrentPoseIndex target (setCurrentPoseIndex other s2))).
Proof.
  intros Hstart.
  destruct (handlePoseSelect_call _ _ _ _ _ Hstart)
    as (l & base & Hidle & Hl & _ & _ & _ & _ & -> & ->).
  unfold resolve, afterPoseSelect, recordPoseImage. simpl. rewrite Hl.
  pose (f := fun updatedLayer =>
               mkLayer (garment updatedLayer)
                 (Js.set (poseImages updatedLayer)
                    (Js.key_of (nth_error (poseInstructions s) target))
                    newImageUrl)).
  pose proof (nth_error_update_same _ _ f _ Hl) as Hl2.
  eexists. exists l, (f l). split; [reflexivity|]. simpl.
  split; [reflexivity|]. split; [reflexivity|]. split; [exact Hl2|].
  split; [apply get_set_same|].
  split; [intros q Hq; apply get_set_other; exact Hq|].
  split; [intros i Hi; apply nth_error_update_other; exact Hi|].
  intros Hne other Hother. unfold handlePoseSelect. simpl.
  assert (Hlen : (length (Js.update (outfitHistory s) (currentOutfitIndex s) f)
                  =? 0)%nat = false).
  { rewrite length_update. apply Nat.eqb_neq.
    assert (currentOutfitIndex s < length (outfitHistory s))
      by (apply nth_error_Some; congruence). lia. }
  fold f. rewrite Hlen.
  apply not_eq_sym in Hother. apply Nat.eqb_neq in Hother.
  rewrite Hother. simpl.
  rewrite Hl2. simpl. rewrite get_set_same. simpl.
  apply String.eqb_neq in Hne. rewrite Hne. reflexivity.
Qed.


(** ** The catalog never holds two entries equal up to case *)

Lemma complete_keeps_catalog_or_appends s op o s' :
  complete (invoke s op) o = Some s' ->
  poseInstructions s' = poseInstructions s \/
  poseInstructions s' = DEFAULT_POSE_INSTRUCTIONS \/
  (exists text,
     Js.findIndex (fun p => toLowerCase p =? toLowerCase (trim text))
       (poseInstructions s) = None /\
     poseInstructions s' = (poseInstructions s ++ [trim text])%list).
Proof.
  assert (Hpose : forall i, complete (handlePoseSelect s i) o = Some s' ->
            poseInstructions s' = poseInstructions s).
  { intros i Hrun.
    destruct (handlePoseSelect_completes s i o) as (s2 & Hs2 & Hcat).
    congruence. }
  assert (Hbg : forall mk, complete (startBackgroundChange s mk) o = Some s' ->
            poseInstructions s' = poseInstructions s).
  { intros mk. unfold startBackgroundChange.
    destruct (_ || _); simpl; [intros [= <-]; reflexivity|].
    unfold resolve. simpl. destruct o; simpl; intros [= <-]; reflexivity. }
  destruct op as [url| |f g| |i|text|prompt|file]; simpl.
  - intros [= <-]. left. reflexivity.
  - intros [= <-]. right. left. reflexivity.
  - intros Hrun. left. revert Hrun. unfold handleGarmentSelect.
    destruct (_ || _); simpl; [intros [= <-]; reflexivity|].
    destruct (isCachedNextLayer _ g); simpl; [intros [= <-]; reflexivity|].
    unfold resolve. simpl. destruct o; simpl; intros [= <-]; reflexivity.
  - intros [= <-]. left. unfold handleRemoveLastGarment.
    destruct (0 <? _)%nat; reflexivity.
  - intros Hrun. left. eapply Hpose; eassumption.
  - destruct (handleCustomPoseGenerate s text) as [r|r|s1 call k] eqn:Hstart.
    + simpl. intros [= <-]. left.
      revert Hstart. unfold handleCustomPoseGenerate.
      destruct (_ || _ || _); [intros [= <-]; reflexivity|].
      destruct (Js.findIndex _ _) as [i|].
      * intros Hstart.
        pose proof (handlePoseSelect_keeps_catalog s i) as Hcat.
        destruct (handlePoseSelect s i); simpl in Hstart;
          try discriminate; injection Hstart as <-; exact Hcat.
      * destruct (nth_error _ _); [|discriminate].
        destruct (negb _); [intros [= <-]; reflexivity|discriminate].
    + simpl. intros [= <-]. left.
      revert Hstart. unfold handleCustomPoseGenerate.
      destruct (_ || _ || _); [discriminate|].
      destruct (Js.findIndex _ _) as [i|].
      * destruct (handlePoseSelect s i); simpl; discriminate.
      * destruct (nth_error _ _); [|intros [= <-]; reflexivity].
        destruct (negb _); discriminate.
    + simpl. intros Hrun.
      destruct (handleCustomPoseGenerate_call _ _ _ _ _ Hstart)
        as [(i & _ & Hi) | (l & base & Hfind & _ & _ & Hl & _ & _ & _ & -> & ->)].
      * left. apply (Hpose i). rewrite Hi. exact Hrun.
      * revert Hrun. unfold resolve, afterCustomPose, recordPoseImage. simpl.
        rewrite Hl. destruct o; simpl; intros [= <-]; simpl.
        -- right. right. exists text. auto.
        -- left. apply revert_append. exact Hfind.
  - intros Hrun. left. eapply Hbg; eassumption.
  - intros Hrun. left. eapply Hbg; eassumption.
Qed.

(** If the default instructions differ pairwise up to case, then so do the
    catalog entries after every operation run to completion on a session
    whose catalog entries do. *)
Theorem catalog_stays_case_distinct s op o s' :
  caseDistinct DEFAULT_POSE_INSTRUCTIONS ->
  caseDistinct (poseInstructions s) ->
  complete (invoke s op) o = Some s' ->
  caseDistinct (poseInstructions s').
Proof.
  intros Hdef Hs Hrun.
  destruct (complete_keeps_catalog_or_appends _ _ _ _ Hrun)
    as [-> | [-> | (text & Hnone & ->)]]; try assumption.
  unfold caseDistinct in *. rewrite map_app. simpl.
  apply NoDup_app; [assumption|repeat constructor; intros []|].
  intros a Ha [<-|[]].
  apply in_map_iff in Ha. destruct Ha as (x & Hx & Hin).
  pose proof (findIndex_from_none _ _ _ Hnone x Hin) as Hfalse. simpl in Hfalse.
  apply String.eqb_neq in Hfalse. congruence.
Qed.

(** ** The wardrobe *)

(** A garment that was put on through the image service is in the wardrobe
    afterwards: it is added at the end unless an item with its id is there
    already, in which case the wardrobe is left as it is.  Ids that were
    distinct stay distinct. *)
Theorem applied_garment_joins_wardrobe s f g newImageUrl s' :
  applyGarment s f g newImageUrl = Some s' ->
  (exists item, In item (wardrobe s') /\ id item = id g) /\
  ((exists item, In item (wardrobe s) /\ id item = id g) ->
     wardrobe s' = wardrobe s) /\
  ((forall item, In item (wardrobe s) -> id item <> id g) ->
     wardrobe s' = (wardrobe s ++ [g])%list) /\
  (NoDup (map id (wardrobe s)) -> NoDup (map id (wardrobe s'))).
Proof.
  unfold applyGarment.
  destruct (handleGarmentSelect s f g) as [| |s1 call k] eqn:Hstart;
    try discriminate.
  destruct (handleGarmentSelect_suspended _ _ _ _ _ _ Hstart)
    as (_ & _ & _ & -> & ->).
  unfold resolve. simpl. intros [= <-]. simpl. unfold addToWardrobe.
  destruct (find (fun item => id item =? id g) (wardrobe s)) as [found|] eqn:Hfind.
  - apply find_some in Hfind. destruct Hfind as (Hin & Heq).
    apply String.eqb_eq in Heq.
    split; [eauto|]. split; [reflexivity|]. split; [|auto].
    intros Hnone. exfalso. exact (Hnone found Hin Heq).
  - assert (Hnone : forall item, In item (wardrobe s) -> id item <> id g).
    { intros item Hin. apply String.eqb_neq.
      exact (find_none _ _ Hfind item Hin). }
    split; [exists g; split; [apply in_or_app; right; left|]; reflexivity|].
    split; [intros (item & Hin & Heq); exfalso; exact (Hnone item Hin Heq)|].
    split; [reflexivity|].
    intros Hnd. rewrite map_app. simpl.
    apply NoDup_app; [assumption|repeat constructor; intros []|].
    intros a Ha [<-|[]].
    apply in_map_iff in Ha. destruct Ha as (x & Hx & Hin).
    exact (Hnone x Hin Hx).
Qed.

(** ** One call at a time *)


End Composition.

Section Navigation.

Context `{host : Host}.

Lemma get_of_key (o : Js.Obj) (k : string) :
  In k (Js.keys o) -> exists v, Js.get o k = Some v /\ In v (Js.values o).
Proof.
  induction o as [|[k' v'] r IH]; simpl; [intros []|].
  destruct (k' =? k) eqn:E.
  - intros _. exists v'. auto.
  - intros [->|Hin]; [rewrite String.eqb_refl in E; discriminate|].
    destruct (IH Hin) as (v & Hget & Hv). exists v. auto.
Qed.

Lemma get_in_values (o : Js.Obj) (k v : string) :
  Js.get o k = Some v -> In v (Js.values o).
Proof.
  induction o as [|[k' v'] r IH]; simpl; [discriminate|].
  destruct (k' =? k); [intros [= ->]; auto|auto].
Qed.

Lemma indexOf_found arr x i :
  Js.indexOf arr x = Some i ->
  exists y, x = Some y /\ nth_error arr i = Some y /\ i < length arr.
Proof.
  destruct x as [y|]; simpl; [|discriminate]. intros H.
  destruct (indexOf_from_found _ _ _ _ H) as (_ & Hn).
  rewrite Nat.sub_0_r in Hn. exists y. repeat split; auto.
  apply nth_error_Some. congruence.
Qed.

Lemma selectRem_bound a (catalog : list string) :
  catalog <> [] ->
  exists j, selectRem a (length catalog) = onSelectPose j /\ j < length catalog.
Proof.
  intros Hne. rewrite (selectRem_nonempty a catalog Hne).
  eexists. split; [reflexivity|].
  apply Nat.mod_upper_bound. destruct catalog; [congruence|discriminate].
Qed.

(** ** The arrows *)

(** With a catalog that is not empty, whatever the rendered poses and the
    current index are, each arrow either does nothing or selects an index of
    the catalog. *)
Theorem arrows_select_catalog_indices busy keys catalog cur :
  catalog <> [] ->
  (handleNextPose busy keys catalog cur = NoCall \/
   exists j, handleNextPose busy keys catalog cur = onSelectPose j /\
             j < length catalog) /\
  (handlePreviousPose busy keys catalog cur = NoCall \/
   exists j, handlePreviousPose busy keys catalog cur = onSelectPose j /\
             j < length catalog).
Proof.
  intros Hne. split.
  - unfold handleNextPose. destruct busy; [auto|].
    destruct (Js.indexOf keys _) as [i|];
      [|right; apply selectRem_bound; assumption].
    destruct (length keys =? 0)%nat;
      [right; apply selectRem_bound; assumption|].
    destruct (i + 1 <? length keys)%nat;
      [|right; apply selectRem_bound; assumption].
    destruct (Js.indexOf catalog _) as [j|] eqn:Hj; [|auto].
    right. exists j. split; [reflexivity|].
    destruct (indexOf_found _ _ _ Hj) as (_ & _ & _ & Hlt). exact Hlt.
  - unfold handlePreviousPose. destruct (busy || _); [auto|].
    destruct (Js.indexOf keys _) as [i|];
      [|right; apply selectRem_bound; assumption].
    destruct (Js.indexOf catalog _) as [j|] eqn:Hj; [|auto].
    right. exists j. split; [reflexivity|].
    destruct (indexOf_found _ _ _ Hj) as (_ & _ & _ & Hlt). exact Hlt.
Qed.

(** When the current pose is among the poses rendered for the current
    layer and the layer's images are present, the previous-pose arrow never
    makes the image service work: it does nothing, or it selects a pose the
    layer already holds. *)
Theorem previousPose_never_generates s l instr :
  nth_error (outfitHistory s) (currentOutfitIndex s) = Some l ->
  Forall (fun img => img <> "") (Js.values (poseImages l)) ->
  currentPoseInstruction s = Some instr ->
  In instr (Js.keys (poseImages l)) ->
  previousPoseTarget s = NoCall \/
  exists j cached,
    previousPoseTarget s = onSelectPose j /\
    nth_error (poseInstructions s) j = Some cached /\
    In cached (Js.keys (poseImages l)) /\
    gatewayCalls (handlePoseSelect s j) = 0.
Proof.
  intros Hl Himgs Hcur Hin.
  assert (Hkeys : availablePoseKeys s = Js.keys (poseImages l)).
  { unfold availablePoseKeys. rewrite Hl.
    destruct (outfitHistory s); [|reflexivity].
    destruct (currentOutfitIndex s); discriminate. }
  unfold previousPoseTarget, handlePreviousPose. rewrite Hkeys.
  destruct (isLoading s || _) eqn:Hguard; [auto|].
  apply orb_false_elim in Hguard. destruct Hguard as (Hidle & Hmany).
  apply Nat.leb_gt in Hmany.
  unfold currentPoseInstruction in Hcur. rewrite Hcur.
  destruct (indexOf_from_In (Js.keys (poseImages l)) instr 0 Hin) as (i & Hi).
  simpl. rewrite Hi.
  set (n := length (Js.keys (poseImages l))) in *.
  assert (Hprev : (i + n - 1) mod n < n) by (apply Nat.mod_upper_bound; lia).
  destruct (nth_error (Js.keys (poseImages l)) ((i + n - 1) mod n))
    as [cached|] eqn:Hc; [|apply nth_error_None in Hc; fold n in Hc; lia].
  simpl. destruct (Js.indexOf_from (poseInstructions s) cached 0) as [j|] eqn:Hj;
    [|auto].
  right. exists j, cached.
  destruct (indexOf_from_found _ _ _ _ Hj) as (_ & Hn).
  rewrite Nat.sub_0_r in Hn.
  assert (Hck : In cached (Js.keys (poseImages l)))
    by (eapply nth_error_In; exact Hc).
  repeat split; auto.
  destruct (get_of_key _ _ Hck) as (v & Hget & Hv).
  assert (Hvne : v <> "") by (rewrite Forall_forall in Himgs; auto).
  unfold handlePoseSelect. rewrite Hidle. simpl.
  destruct (_ || _); [reflexivity|].
  rewrite Hl, Hn. simpl. rewrite Hget. simpl.
  apply String.eqb_neq in Hvne. rewrite Hvne. reflexivity.
Qed.

(** ** What is shown while a pose is rendered *)

(** While [handlePoseSelect] waits for the image service, the pose index is
    already the requested one and the image on display is the very image
    that was sent to the service as the base: the first image of the
    current layer. *)
Theorem pending_pose_shows_base_image s target s1 base instr k :
  handlePoseSelect s target = Suspended s1 (generatePoseVariation base instr) k ->
  imagesPresent s ->
  displayImageUrl s1 = Some base /\
  base <> "" /\
  currentPoseIndex s1 = target /\
  instr = nth_error (poseInstructions s) target /\
  exists l, nth_error (outfitHistory s) (currentOutfitIndex s) = Some l /\
            hd_error (Js.values (poseImages l)) = Some base.
Proof.
  intros Hstart Himgs.
  destruct (handlePoseSelect_call _ _ _ _ _ Hstart)
    as (l & base' & _ & Hl & Hmiss & Hb & Hbne & Hcall & -> & _).
  injection Hcall as -> ->.
  assert (Hnone : Js.get (poseImages l)
                    (Js.key_of (nth_error (poseInstructions s) target)) = None).
  { destruct (Js.get _ _) as [v|] eqn:Hget; [|reflexivity].
    assert (Hv : v <> "").
    { unfold imagesPresent in Himgs. rewrite Forall_forall in Himgs.
      pose proof (Himgs l (nth_error_In _ _ Hl)) as Hall.
      rewrite Forall_forall in Hall. apply Hall.
      eapply get_in_values. exact Hget. }
    simpl in Hmiss. apply String.eqb_neq in Hv. rewrite Hv in Hmiss.
    discriminate. }
  split.
  - unfold displayImageUrl, currentPoseInstruction. simpl.
    rewrite Hl, Hnone, Hb.
    destruct (outfitHistory s); [|reflexivity].
    destruct (currentOutfitIndex s); discriminate.
  - repeat split; auto. exists l. auto.
Qed.

(** ** The wardrobe panel *)

Lemma active_layer_id s i l g' :
  nth_error (outfitHistory s) i = Some l ->
  i <= currentOutfitIndex s ->
  garment l = Some g' ->
  id g' <> "" ->
  In (id g') (activeGarmentIds s).
Proof.
  intros Hl Hi Hg Hne. unfold activeGarmentIds, activeOutfitLayers, Js.slice0.
  apply in_map_iff. exists (Some (id g')). split; [reflexivity|].
  apply filter_In. split.
  - apply in_map_iff. exists l. rewrite Hg. split; [reflexivity|].
    apply (nth_error_In _ i). rewrite nth_error_firstn.
    assert (Hlt : (i <? currentOutfitIndex s + 1)%nat = true)
      by (apply Nat.ltb_lt; lia).
    rewrite Hlt. exact Hl.
  - simpl. apply String.eqb_neq in Hne. rewrite Hne. reflexivity.
Qed.

(** Once [handleGarmentSelect] has put a garment on, by reusing the next
    layer or through the image service, the garment's id is among the
    active ones and the wardrobe panel ignores a click on it. *)
Theorem garment_put_on_is_not_clickable s f g o s' :
  currentOutfitIndex s < length (outfitHistory s) ->
  id g <> "" ->
  complete (handleGarmentSelect s f g) o = Some s' ->
  currentOutfitIndex s' = currentOutfitIndex s + 1 ->
  In (id g) (activeGarmentIds s') /\ garmentClick s' g = ClickIgnored.
Proof.
  intros Hlt Hne Hrun Hadv.
  assert (Hactive : In (id g) (activeGarmentIds s')).
  { revert Hrun. unfold handleGarmentSelect.
    destruct (_ || _); simpl; [intros [= <-]; lia|].
    destruct (isCachedNextLayer _ g) eqn:Hcached; simpl.
    - intros [= <-]. unfold isCachedNextLayer in Hcached.
      destruct (nth_error (outfitHistory s) (currentOutfitIndex s + 1))
        as [l|] eqn:Hl; [|discriminate].
      destruct (garment l) as [g'|] eqn:Hg; [|discriminate].
      apply String.eqb_eq in Hcached. rewrite <- Hcached.
      apply (active_layer_id _ (currentOutfitIndex s + 1) l g');
        simpl; auto; congruence.
    - unfold resolve. simpl. destruct o as [newImageUrl|err]; simpl.
      + intros [= <-].
        apply (active_layer_id _ (currentOutfitIndex s + 1)
                 (mkLayer (Some g)
                    (Js.singleton (Js.key_of (currentPoseInstruction s))
                       newImageUrl)) g);
          simpl; auto.
        unfold pushLayer, Js.slice0.
        rewrite nth_error_app2 by (rewrite length_firstn; lia).
        rewrite length_firstn.
        replace (currentOutfitIndex s + 1 -
                 Nat.min (currentOutfitIndex s + 1) (length (outfitHistory s)))
          with 0 by lia.
        reflexivity.
      + intros [= <-]. simpl in Hadv. lia. }
  split; [exact Hactive|].
  unfold garmentClick, handleGarmentClick.
  assert (Hex : existsb (String.eqb (id g)) (activeGarmentIds s') = true).
  { apply existsb_exists. exists (id g). split; [exact Hactive|].
    apply String.eqb_refl. }
  rewrite Hex, orb_true_r. reflexivity.
Qed.

(** ** Starting over while a call is pending *)

(** Starting over does not cancel a pending call.  It leaves the initial
    state with the loading flag down; when the image for a pending pose or
    custom pose arrives after that, the history updater finds no layer at
    the remembered cursor and throws; when the image for a pending garment
    arrives, its layer becomes the only one of the history with the cursor
    at 1, beyond it, and nothing on display. *)
Theorem startOver_does_not_cancel s op s1 call k newImageUrl :
  invoke s op = Suspended s1 call k ->
  handleStartOver s1 = initialState /\
  match continuation k with
  | AfterPoseSelect _ | AfterCustomPose _ =>
      resolve k (Fulfilled newImageUrl) (handleStartOver s1) = None
  | AfterGarmentSelect g =>
      exists s2,
        resolve k (Fulfilled newImageUrl) (handleStartOver s1) = Some s2 /\
        outfitHistory s2 =
          [mkLayer (Some g)
             [(Js.key_of (currentPoseInstruction s), newImageUrl)]] /\
        currentOutfitIndex s2 = 1 /\
        displayImageUrl s2 = None
  | AfterBackgroundChange =>
      resolve k (Fulfilled newImageUrl) (handleStartOver s1) = Some initialState
  end.
Proof.
  intros Hstart. split; [reflexivity|].
  assert (Hpose : forall i, handlePoseSelect s i = Suspended s1 call k ->
            k = mkPending s (AfterPoseSelect i)).
  { intros i Hi.
    destruct (handlePoseSelect_call _ _ _ _ _ Hi)
      as (l & base & _ & _ & _ & _ & _ & _ & _ & ->). reflexivity. }
  assert (Hthrows : forall c key,
            recordPoseImage c key newImageUrl (outfitHistory (handleStartOver s1))
            = None).
  { intros c key. unfold recordPoseImage. simpl.
    destruct (currentOutfitIndex c); reflexivity. }
  destruct op as [url| |f g| |i|text|prompt|file]; simpl in Hstart;
    try discriminate.
  - destruct (handleGarmentSelect_suspended _ _ _ _ _ _ Hstart)
      as (_ & _ & _ & _ & ->).
    simpl. eexists. split; [reflexivity|]. simpl.
    unfold pushLayer, Js.slice0. rewrite firstn_nil. repeat split.
  - rewrite (Hpose i Hstart). simpl. unfold resolve, afterPoseSelect. simpl.
    rewrite Hthrows. reflexivity.
  - destruct (handleCustomPoseGenerate_call _ _ _ _ _ Hstart)
      as [(i & _ & Hi) | (l & base & _ & _ & _ & _ & _ & _ & _ & _ & ->)].
    + rewrite (Hpose i Hi). simpl. unfold resolve, afterPoseSelect. simpl.
      rewrite Hthrows. reflexivity.
    + simpl. unfold resolve, afterCustomPose. simpl.
      rewrite Hthrows. reflexivity.
  - destruct (startBackgroundChange_suspended _ _ _ _ _ Hstart)
      as (_ & _ & _ & ->).
    simpl. unfold resolve, afterBackgroundChange, overwriteCurrentPoseImage,
      jsonClone. simpl.
    destruct (currentOutfitIndex s); reflexivity.
  - destruct (startBackgroundChange_suspended _ _ _ _ _ Hstart)
      as (_ & _ & _ & ->).
    simpl. unfold resolve, afterBackgroundChange, overwriteCurrentPoseImage,
      jsonClone. simpl.
    destruct (currentOutfitIndex s); reflexivity.
Qed.

End Navigation.

Section Responses.

Context `{host : Host}.

(** ** Which image a response yields *)

Lemma find_first_inline ps1 p ps2 img :
  (forall p', In p' ps1 -> inlineData p' = None) ->
  inlineData p = Some img ->
  find (fun part => match inlineData part with Some _ => true | None => false end)
    (ps1 ++ p :: ps2)%list = Some p.
Proof.
  intros Hnone Himg. induction ps1 as [|q r IH]; simpl.
  - rewrite Himg. reflexivity.
  - rewrite (Hnone q) by (left; reflexivity).
    apply IH. intros p' Hin. apply Hnone. right. exact Hin.
Qed.

Lemma find_no_inline ps :
  (forall p, In p ps -> inlineData p = None) ->
  find (fun part => match inlineData part with Some _ => true | None => false end)
    ps = None.
Proof.
  induction ps as [|q r IH]; simpl; intros Hnone; [reflexivity|].
  rewrite (Hnone q) by (left; reflexivity).
  apply IH. intros p Hin. apply Hnone. right. exact Hin.
Qed.

Lemma firstImage_skips cs1 cs :
  (forall c ps p, In c cs1 -> parts c = Some ps -> In p ps -> inlineData p = None) ->
  firstImage (cs1 ++ cs)%list = firstImage cs.
Proof.
  induction cs1 as [|c r IH]; simpl; intros Hnone; [reflexivity|].
  assert (Hr : firstImage (r ++ cs)%list = firstImage cs).
  { apply IH. intros c' ps p Hin. apply Hnone. right. exact Hin. }
  destruct (parts c) as [ps|] eqn:Hps; [|exact Hr].
  rewrite find_no_inline; [exact Hr|].
  intros p Hin. apply (Hnone c ps p); auto.
Qed.

(** Unless the prompt was blocked, the answer is the data URL of the first
    inline-data part of the first candidate that has one, whatever the finish
    reasons and the text of the response say. *)
Theorem first_image_part_wins response cs1 c cs2 ps1 p ps2 img :
  Js.truthy (blockReason response) = false ->
  candidates response = Some (cs1 ++ c :: cs2)%list ->
  (forall c' ps p', In c' cs1 -> parts c' = Some ps -> In p' ps ->
                    inlineData p' = None) ->
  parts c = Some (ps1 ++ p :: ps2)%list ->
  (forall p', In p' ps1 -> inlineData p' = None) ->
  inlineData p = Some img ->
  handleApiResponse response =
    inl ("data:" ++ Js.key_of (mimeType img) ++ ";base64,"
         ++ Js.key_of (data img)).
Proof.
  intros Hblock Hcs Hbefore Hparts Hnone Himg.
  unfold handleApiResponse. rewrite Hblock, Hcs.
  rewrite (firstImage_skips cs1 (c :: cs2) Hbefore). simpl.
  rewrite Hparts, (find_first_inline ps1 p ps2 img Hnone Himg), Himg.
  reflexivity.
Qed.

(** A blocked prompt is an error even when the response carries an image,
    and so is a response none of whose candidates has an inline-data part;
    the error message is never empty. *)
Theorem response_without_image_is_error response :
  Js.truthy (blockReason response) = true \/
  (forall cs c ps p, candidates response = Some cs -> In c cs ->
                     parts c = Some ps -> In p ps -> inlineData p = None) ->
  exists message, handleApiResponse response = inr message /\ message <> "".
Proof.
  intros [Hblock|Hnone]; unfold handleApiResponse.
  - rewrite Hblock. eexists. split; [reflexivity|discriminate].
  - destruct (Js.truthy (blockReason response));
      [eexists; split; [reflexivity|discriminate]|].
    assert (Hfirst : firstImage
                       match candidates response with
                       | Some cs => cs
                       | None => []
                       end = None).
    { destruct (candidates response) as [cs|] eqn:Hcs; [|reflexivity].
      rewrite <- (app_nil_r cs). rewrite firstImage_skips; [reflexivity|].
      intros c ps p Hin. apply (Hnone cs c ps p); auto. }
    rewrite Hfirst.
    destruct (_ && _); eexists; (split; [reflexivity|discriminate]).
Qed.

(** ** Data URLs *)

Lemma append_assoc (a b c : string) : (a ++ b) ++ c = a ++ (b ++ c).
Proof. induction a as [|x r IH]; simpl; [reflexivity|]. rewrite IH. reflexivity. Qed.

Lemma splitComma_noComma d : noComma d = true -> splitComma d = [d].
Proof.
  induction d as [|c r IH]; simpl; [reflexivity|].
  destruct (c =? ",")%char; simpl; [discriminate|].
  intros Hr. rewrite (IH Hr). reflexivity.
Qed.

Lemma splitComma_header h rest :
  noComma h = true ->
  splitComma (h ++ String "," rest) = h :: splitComma rest.
Proof.
  induction h as [|c r IH]; simpl; [reflexivity|].
  destruct (c =? ",")%char; simpl; [discriminate|].
  intros Hr. rewrite (IH Hr). reflexivity.
Qed.

Lemma splitComma_parts s : Forall (fun part => noComma part = true) (splitComma s).
Proof.
  induction s as [|c r IH]; simpl; [repeat constructor|].
  destruct (c =? ",")%char eqn:E.
  - constructor; [reflexivity|exact IH].
  - destruct (splitComma r) as [|h t]; [repeat constructor; simpl; rewrite E; reflexivity|].
    inversion IH as [|? ? Hh Ht]; subst.
    constructor; [simpl; rewrite E, Hh; reflexivity|exact Ht].
Qed.

Lemma noComma_app a b : noComma (a ++ b) = noComma a && noComma b.
Proof.
  induction a as [|c r IH]; simpl; [reflexivity|].
  rewrite IH, andb_assoc. reflexivity.
Qed.

Lemma plainMime_noComma m : plainMime m = true -> noComma m = true.
Proof.
  induction m as [|c r IH]; [reflexivity|].
  cbn [plainMime noComma]. intros H.
  apply andb_prop in H. destruct H as (H & Hr).
  apply andb_prop in H. destruct H as (H & _).
  apply andb_prop in H. destruct H as (Hc & _).
  rewrite Hc, (IH Hr). reflexivity.
Qed.

Lemma startsLineTerminator_before_semicolon c r rest :
  startsLineTerminator (String c (r ++ String ";" rest)) =
  startsLineTerminator (String c r).
Proof.
  destruct r as [|c2 [|c3 r']]; simpl.
  - destruct rest; simpl; rewrite ?andb_false_r; reflexivity.
  - rewrite andb_false_r. reflexivity.
  - reflexivity.
Qed.

Lemma lazyUntilSemicolon_plain m rest :
  plainMime m = true -> lazyUntilSemicolon (m ++ String ";" rest) = Some m.
Proof.
  induction m as [|c r IH]; [reflexivity|].
  intros H. cbn [plainMime] in H.
  apply andb_prop in H. destruct H as (H & Hr).
  apply andb_prop in H. destruct H as (H & Hlt).
  apply andb_prop in H. destruct H as (_ & Hsemi).
  apply negb_true_iff in Hsemi. apply negb_true_iff in Hlt.
  change (String c r ++ String ";" rest) with (String c (r ++ String ";" rest)).
  cbn [lazyUntilSemicolon]. rewrite Hsemi.
  rewrite startsLineTerminator_before_semicolon, Hlt, (IH Hr). reflexivity.
Qed.

Lemma lazyUntilSemicolon_sound s m :
  lazyUntilSemicolon s = Some m ->
  exists rest, s = m ++ String ";" rest /\
    (noComma s = true -> plainMime m = true).
Proof.
  revert m. induction s as [|c r IH]; intros m; [discriminate|].
  cbn [lazyUntilSemicolon].
  destruct (c =? ";")%char eqn:Hsemi.
  - intros [= <-]. apply Ascii.eqb_eq in Hsemi. subst c.
    exists r. split; reflexivity.
  - destruct (startsLineTerminator (String c r)) eqn:Hlt; [discriminate|].
    destruct (lazyUntilSemicolon r) as [m'|] eqn:Hr; [|discriminate].
    intros [= <-]. destruct (IH m' eq_refl) as (rest & -> & Hplain).
    exists rest. split; [reflexivity|].
    cbn [noComma]. intros Hnc. apply andb_prop in Hnc.
    destruct Hnc as (Hc & Hnr).
    cbn [plainMime]. rewrite Hc, Hsemi, (Hplain Hnr).
    rewrite startsLineTerminator_before_semicolon in Hlt. rewrite Hlt.
    reflexivity.
Qed.

Lemma mimeMatch_sound s m :
  mimeMatch s = Some m -> noComma s = true -> plainMime m = true.
Proof.
  induction s as [|c r IH]; [discriminate|].
  cbn [mimeMatch noComma]. intros Hm Hnc.
  apply andb_prop in Hnc. destruct Hnc as (_ & Hnr).
  destruct (c =? ":")%char; [|auto].
  destruct (lazyUntilSemicolon r) as [m'|] eqn:Hl; [|auto].
  injection Hm as <-.
  destruct (lazyUntilSemicolon_sound _ _ Hl) as (rest & _ & Hplain). auto.
Qed.

Lemma dataUrl_reads_back m d :
  m <> "" ->
  plainMime m = true ->
  noComma d = true ->
  dataUrlToParts ("data:" ++ m ++ ";base64," ++ d) = inl (m, d).
Proof.
  intros Hne Hplain Hd. unfold dataUrlToParts.
  assert (Hurl : "data:" ++ m ++ ";base64," ++ d =
                 ("data:" ++ m ++ ";base64") ++ String "," d).
  { rewrite !append_assoc. reflexivity. }
  rewrite Hurl, splitComma_header, (splitComma_noComma d Hd).
  - assert (Hmatch : mimeMatch ("data:" ++ m ++ ";base64") = Some m).
    { simpl. rewrite lazyUntilSemicolon_plain by exact Hplain. reflexivity. }
    rewrite Hmatch. apply String.eqb_neq in Hne. rewrite Hne. reflexivity.
  - simpl. rewrite noComma_app, (plainMime_noComma m Hplain). reflexivity.
Qed.

(** An image the service returns can be sent back to it: when the first
    inline-data part of a response that is not blocked has a MIME type that
    is not empty and has no comma, semicolon or line terminator, and data
    without a comma, [dataUrlToParts] reads the URL that [handleApiResponse]
    returns back as that MIME type and that data. *)
Theorem returned_image_reads_back response img m d :
  Js.truthy (blockReason response) = false ->
  firstImage match candidates response with Some cs => cs | None => [] end
    = Some img ->
  mimeType img = Some m ->
  data img = Some d ->
  m <> "" ->
  plainMime m = true ->
  noComma d = true ->
  exists dataUrl,
    handleApiResponse response = inl dataUrl /\
    dataUrlToParts dataUrl = inl (m, d).
Proof.
  intros Hblock Hfirst Hm Hd Hne Hplain Hnc.
  unfold handleApiResponse. rewrite Hblock, Hfirst, Hm, Hd.
  eexists. split; [reflexivity|]. simpl Js.key_of.
  apply dataUrl_reads_back; assumption.
Qed.

(** What [dataUrlToParts] rejects and what it returns: a string without a
    comma is not a data URL; and a MIME type it returns is not empty and has
    no comma, semicolon or line terminator, and the data it returns has no
    comma, so the pair can be encoded and read back again. *)
Theorem dataUrlToParts_sound dataUrl :
  (noComma dataUrl = true -> dataUrlToParts dataUrl = inr "Invalid data URL") /\
  (forall m d,
     dataUrlToParts dataUrl = inl (m, d) ->
     m <> "" /\ plainMime m = true /\ noComma d = true /\
     dataUrlToParts ("data:" ++ m ++ ";base64," ++ d) = inl (m, d)).
Proof.
  split.
  - intros Hnc. unfold dataUrlToParts. rewrite (splitComma_noComma _ Hnc).
    reflexivity.
  - intros m d. unfold dataUrlToParts.
    pose proof (splitComma_parts dataUrl) as Hparts.
    destruct (splitComma dataUrl) as [|header [|payload rest]]; try discriminate.
    inversion Hparts as [|? ? Hh Ht]; subst.
    inversion Ht as [|? ? Hp _]; subst.
    destruct (mimeMatch header) as [m'|] eqn:Hm; [|discriminate].
    destruct (m' =? "") eqn:Hne; [discriminate|].
    intros [= <- <-]. apply String.eqb_neq in Hne.
    pose proof (mimeMatch_sound _ _ Hm Hh) as Hplain.
    repeat split; auto.
    apply dataUrl_reads_back; assumption.
Qed.

End Responses.

(** * The further properties on the example sessions *)


Lemma imagesPresent_freshModel : imagesPresent freshModel.
Proof. repeat constructor; discriminate. Qed.

Lemma defaults_case_distinct :
  caseDistinct (host:=exampleHost) DEFAULT_POSE_INSTRUCTIONS.
Proof.
  unfold caseDistinct. simpl.
  repeat constructor; simpl; intuition discriminate.
Qed.


Lemma failed_call_restores_state_witness :
  exists s1 call k,
    invoke (host:=exampleHost) freshModel
      (ApplyGarment (host:=exampleHost) "shirt.png" shirt) = Suspended s1 call k /\
    resolve (host:=exampleHost) k (Rejected (host:=exampleHost) "quota exceeded") s1 =
      Some (setLoadingMessage ""
              (setError (Some "Failed to apply garment. quota exceeded") freshModel)).
Proof.
  do 3 eexists. split; [reflexivity|].
  destruct (failed_call_restores_state (host:=exampleHost) freshModel
              (ApplyGarment (host:=exampleHost) "shirt.png" shirt)
              _ _ _ "quota exceeded" eq_refl)
    as (_ & Hrestored).
  exact Hrestored.
Defined.


Lemma remove_then_reapply_restores_witness :
  isLoading dressed = false /\
  0 < currentOutfitIndex dressed /\
  handleGarmentSelect (host:=exampleHost) (handleRemoveLastGarment dressed)
    "shirt.png" shirt = Returned (setCurrentPoseIndex 0 dressed).
Proof.
  split; [reflexivity|]. split; [vm_compute; lia|].
  apply (remove_then_reapply_restores (host:=exampleHost) dressed "shirt.png" shirt
           (mkLayer (Some shirt) [("Full frontal view, hands on hips", "imgB")])
           shirt);
    try reflexivity.
  vm_compute. lia.
Defined.

Lemma selectPose_success_caches_witness :
  exists s1 call k s2,
    handlePoseSelect (host:=exampleHost) freshModel 2 = Suspended s1 call k /\
    resolve (host:=exampleHost) k (Fulfilled (host:=exampleHost) "imgA2") s1 =
      Some s2 /\
    currentPoseIndex s2 = 2 /\
    handlePoseSelect (host:=exampleHost) (setCurrentPoseIndex 0 s2) 2 =
      Returned (setCurrentPoseIndex 2 (setCurrentPoseIndex 0 s2)).
Proof.
  do 3 eexists.
  destruct (selectPose_success_caches (host:=exampleHost) freshModel 2
              _ _ _ "imgA2" eq_refl)
    as (s2 & l & l2 & Hs2 & Hp & _ & _ & _ & _ & _ & Hagain).
  exists s2. split; [reflexivity|]. split; [exact Hs2|]. split; [exact Hp|].
  apply Hagain; discriminate.
Defined.


Lemma catalog_stays_case_distinct_witness :
  caseDistinct (host:=exampleHost) DEFAULT_POSE_INSTRUCTIONS /\
  exists s',
    complete (host:=exampleHost)
      (invoke (host:=exampleHost) freshModel
         (GenerateCustomPose (host:=exampleHost) " Arms crossed "))
      (Fulfilled (host:=exampleHost) "imgA7") = Some s' /\
    poseInstructions s' = (DEFAULT_POSE_INSTRUCTIONS ++ ["Arms crossed"])%list /\
    caseDistinct (host:=exampleHost) (poseInstructions s').
Proof.
  split; [exact defaults_case_distinct|].
  eexists. split; [reflexivity|]. split; [reflexivity|].
  apply (catalog_stays_case_distinct (host:=exampleHost) freshModel
           (GenerateCustomPose (host:=exampleHost) " Arms crossed ")
           (Fulfilled (host:=exampleHost) "imgA7"));
    [exact defaults_case_distinct|exact defaults_case_distinct|reflexivity].
Defined.

Lemma applied_garment_joins_wardrobe_witness :
  applyGarment (host:=exampleHost) freshModel "shirt.png" shirt "imgB" = Some dressed /\
  wardrobe dressed = (wardrobe freshModel ++ [shirt])%list /\
  NoDup (map id (wardrobe dressed)).
Proof.
  assert (Hrun : applyGarment (host:=exampleHost) freshModel "shirt.png" shirt "imgB"
                 = Some dressed) by reflexivity.
  split; [exact Hrun|].
  destruct (applied_garment_joins_wardrobe (host:=exampleHost) freshModel
              "shirt.png" shirt "imgB" dressed Hrun)
    as (_ & _ & Hnew & Hdistinct).
  split.
  - apply Hnew. simpl. intuition (subst; discriminate).
  - apply Hdistinct. simpl. repeat constructor; simpl; intuition discriminate.
Defined.


Lemma arrows_select_catalog_indices_witness :
  DEFAULT_POSE_INSTRUCTIONS <> [] /\
  (exists j,
     handlePreviousPose false
       ["Side profile view"; "Full frontal view, hands on hips"]
       DEFAULT_POSE_INSTRUCTIONS 0 = onSelectPose j /\
     j < length DEFAULT_POSE_INSTRUCTIONS).
Proof.
  assert (Hne : DEFAULT_POSE_INSTRUCTIONS <> []) by discriminate.
  split; [exact Hne|].
  destruct (arrows_select_catalog_indices false
              ["Side profile view"; "Full frontal view, hands on hips"]
              DEFAULT_POSE_INSTRUCTIONS 0 Hne)
    as (_ & [Hnocall | Hprev]).
  - vm_compute in Hnocall. discriminate.
  - exact Hprev.
Defined.

Lemma previousPose_never_generates_witness :
  currentPoseInstruction sideThenFront = Some "Full frontal view, hands on hips" /\
  exists j cached,
    previousPoseTarget sideThenFront = onSelectPose j /\
    nth_error (poseInstructions sideThenFront) j = Some cached /\
    gatewayCalls (handlePoseSelect (host:=exampleHost) sideThenFront j) = 0.
Proof.
  split; [reflexivity|].
  destruct (previousPose_never_generates (host:=exampleHost) sideThenFront
              (mkLayer (Some shirt)
                 [("Side profile view", "imgB2");
                  ("Full frontal view, hands on hips", "imgB0")])
              "Full frontal view, hands on hips")
    as [Hnocall | (j & cached & Htarget & Hnth & _ & Hcalls)].
  - reflexivity.
  - repeat constructor; discriminate.
  - reflexivity.
  - simpl. auto.
  - vm_compute in Hnocall. discriminate.
  - exists j, cached. repeat split; assumption.
Defined.

Lemma pending_pose_shows_base_image_witness :
  imagesPresent freshModel /\
  exists s1 k,
    handlePoseSelect (host:=exampleHost) freshModel 1 =
      Suspended s1
        (generatePoseVariation (host:=exampleHost) "imgA"
           (Some "Slightly turned, 3/4 view")) k /\
    currentPoseIndex s1 = 1 /\
    displayImageUrl s1 = Some "imgA".
Proof.
  split; [exact imagesPresent_freshModel|].
  do 2 eexists.
  destruct (pending_pose_shows_base_image (host:=exampleHost) freshModel 1
              _ "imgA" (Some "Slightly turned, 3/4 view") _
              eq_refl imagesPresent_freshModel)
    as (Hshown & _ & Hidx & _).
  split; [reflexivity|]. split; [exact Hidx|exact Hshown].
Defined.

Lemma garment_put_on_is_not_clickable_witness :
  currentOutfitIndex freshModel < length (outfitHistory freshModel) /\
  id shirt <> "" /\
  complete (host:=exampleHost)
    (handleGarmentSelect (host:=exampleHost) freshModel "shirt.png" shirt)
    (Fulfilled (host:=exampleHost) "imgB") = Some dressed /\
  garmentClick dressed shirt = ClickIgnored /\
  garmentClick dressed hat = ClickDownload "blob:hat" "Hat".
Proof.
  assert (Hlt : currentOutfitIndex freshModel < length (outfitHistory freshModel))
    by (vm_compute; lia).
  assert (Hid : id shirt <> "") by discriminate.
  split; [exact Hlt|]. split; [exact Hid|]. split; [reflexivity|].
  destruct (garment_put_on_is_not_clickable (host:=exampleHost) freshModel
              "shirt.png" shirt (Fulfilled (host:=exampleHost) "imgB") dressed
              Hlt Hid eq_refl eq_refl)
    as (_ & Hignored).
  split; [exact Hignored|reflexivity].
Defined.

Lemma startOver_does_not_cancel_witness :
  exists s1 call k,
    invoke (host:=exampleHost) freshModel (SelectPose (host:=exampleHost) 1) =
      Suspended s1 call k /\
    handleStartOver s1 = initialState /\
    resolve (host:=exampleHost) k (Fulfilled (host:=exampleHost) "imgA1")
      (handleStartOver s1) = None.
Proof.
  do 3 eexists. split; [reflexivity|].
  exact (startOver_does_not_cancel (host:=exampleHost) freshModel
           (SelectPose (host:=exampleHost) 1) _ _ _ "imgA1" eq_refl).
Defined.

Lemma first_image_part_wins_witness :
  Js.truthy (blockReason imageResponse) = false /\
  handleApiResponse (host:=exampleHost) imageResponse =
    inl "data:image/png;base64,iVBOR".
Proof.
  split; [reflexivity|].
  apply (first_image_part_wins (host:=exampleHost) imageResponse
           [mkCandidate (Some [mkPart None]) (Some "STOP")]
           (mkCandidate (Some [mkPart None; pngPart]) (Some "SAFETY")) []
           [mkPart None] pngPart []
           (mkInlineData (Some "image/png") (Some "iVBOR")));
    try reflexivity.
  - intros c' ps p' [<-|[]] [= <-] [<-|[]]. reflexivity.
  - intros p' [<-|[]]. reflexivity.
Defined.

Lemma response_without_image_is_error_witness :
  Js.truthy (blockReason blockedResponse) = true /\
  exists message,
    handleApiResponse (host:=exampleHost) blockedResponse = inr message /\
    message <> "".
Proof.
  split; [reflexivity|].
  apply (response_without_image_is_error (host:=exampleHost) blockedResponse).
  left. reflexivity.
Defined.

Lemma handleApiResponse_image_witness :
  handleApiResponse (host:=exampleHost) imageResponse =
    inl "data:image/png;base64,iVBOR" /\
  "data:image/png;base64,iVBOR" <> "".
Proof.
  assert (Hrun : handleApiResponse (host:=exampleHost) imageResponse =
                 inl "data:image/png;base64,iVBOR") by reflexivity.
  split; [exact Hrun|].
  destruct (handleApiResponse_image (host:=exampleHost) imageResponse _ Hrun)
    as (Hne & _).
  exact Hne.
Defined.

Lemma returned_image_reads_back_witness :
  exists dataUrl,
    handleApiResponse (host:=exampleHost) imageResponse = inl dataUrl /\
    dataUrlToParts dataUrl = inl ("image/png", "iVBOR").
Proof.
  apply (returned_image_reads_back (host:=exampleHost) imageResponse
           (mkInlineData (Some "image/png") (Some "iVBOR")) "image/png" "iVBOR");
    try reflexivity.
  discriminate.
Defined.

Lemma dataUrlToParts_sound_witness :
  dataUrlToParts "blob:shirt" = inr "Invalid data URL" /\
  dataUrlToParts "data:image/jpeg;charset=x;base64,AAAA,BBBB" =
    inl ("image/jpeg", "AAAA") /\
  dataUrlToParts ("data:" ++ "image/jpeg" ++ ";base64," ++ "AAAA") =
    inl ("image/jpeg", "AAAA").
Proof.
  split.
  - apply (dataUrlToParts_sound "blob:shirt"). reflexivity.
  - assert (Hread : dataUrlToParts "data:image/jpeg;charset=x;base64,AAAA,BBBB" =
                    inl ("image/jpeg", "AAAA")) by reflexivity.
    split; [exact Hread|].
    destruct (dataUrlToParts_sound "data:image/jpeg;charset=x;base64,AAAA,BBBB")
      as (_ & Hsound).
    destruct (Hsound "image/jpeg" "AAAA" Hread) as (_ & _ & _ & Hback).
    exact Hback.
Defined.

Section Display.

Context `{host : Host}.

(** ** Something is always on display *)

Lemma values_replace o k v x :
  In x (Js.values (Js.replace o k v)) -> x = v \/ In x (Js.values o).
Proof.
  induction o as [|[k' v'] r IH]; simpl; [intros []|].
  destruct (k' =? k); simpl.
  - intros [<-|Hin]; auto.
  - intros [<-|Hin]; auto. destruct (IH Hin); auto.
Qed.

Lemma values_insert_index o n k v x :
  In x (Js.values (Js.insert_index o n k v)) -> x = v \/ In x (Js.values o).
Proof.
  induction o as [|[k' v'] r IH]; simpl.
  - intros [<-|[]]. auto.
  - destruct (Js.array_index k') as [m|]; [destruct (m <? n)%N|]; simpl.
    + intros [<-|Hin]; auto. destruct (IH Hin); auto.
    + intros [<-|[<-|Hin]]; auto.
    + intros [<-|[<-|Hin]]; auto.
Qed.

Lemma values_set o k v x :
  In x (Js.values (Js.set o k v)) -> x = v \/ In x (Js.values o).
Proof.
  unfold Js.set. destruct (Js.get o k).
  - apply values_replace.
  - destruct (Js.array_index k).
    + apply values_insert_index.
    + unfold Js.values. rewrite map_app. simpl. intros Hin.
      apply in_app_or in Hin. destruct Hin as [Hin|[<-|[]]]; auto.
Qed.

Lemma set_not_empty o k v : Js.set o k v <> [].
Proof.
  intros Hnil.
  pose proof (get_set_same o k v) as Hget. rewrite Hnil in Hget. discriminate.
Qed.

Lemma Forall_update {A} (P : A -> Prop) (arr : list A) i (f : A -> A) :
  Forall P arr -> (forall x, P x -> P (f x)) -> Forall P (Js.update arr i f).
Proof.
  intros Harr Hf. revert i.
  induction Harr as [|x r Hx Hr IH]; intros [|j]; simpl; auto.
Qed.

(** The shapes the history can take after an operation: left alone,
    emptied, a single root layer, cut and extended by one layer holding the
    returned image, or with the returned image recorded in one layer. *)
Lemma complete_history_shapes s op o s' :
  complete (invoke s op) o = Some s' ->
  outfitHistory s' = outfitHistory s \/
  outfitHistory s' = [] \/
  (exists url key, op = FinalizeModel url /\
     outfitHistory s' = [mkLayer None [(key, url)]]) \/
  (exists g key img n, o = Fulfilled img /\
     outfitHistory s' =
       (firstn n (outfitHistory s) ++ [mkLayer (Some g) [(key, img)]])%list) \/
  (exists key img c, o = Fulfilled img /\
     outfitHistory s' =
       Js.update (outfitHistory s) c
         (fun layer => mkLayer (garment layer) (Js.set (poseImages layer) key img))).
Proof.
  assert (Hpose : forall i, complete (handlePoseSelect s i) o = Some s' ->
            outfitHistory s' = outfitHistory s \/
            exists key img c, o = Fulfilled img /\
              outfitHistory s' =
                Js.update (outfitHistory s) c
                  (fun layer => mkLayer (garment layer)
                                  (Js.set (poseImages layer) key img))).
  { intros i. unfold handlePoseSelect.
    destruct (_ || _ || _); simpl; [intros [= <-]; auto|].
    destruct (nth_error (outfitHistory s) (currentOutfitIndex s)) as [l|] eqn:Hl;
      simpl; [|intros [= <-]; auto].
    destruct (Js.truthy (Js.get _ _)); simpl; [intros [= <-]; auto|].
    destruct (negb _); simpl; [intros [= <-]; auto|].
    unfold resolve, afterPoseSelect, recordPoseImage. simpl. rewrite Hl.
    destruct o as [img|err]; simpl; intros [= <-]; simpl; [|auto].
    right. do 3 eexists. split; reflexivity. }
  assert (Hbg : forall mk, complete (startBackgroundChange s mk) o = Some s' ->
            outfitHistory s' = outfitHistory s \/
            exists key img c, o = Fulfilled img /\
              outfitHistory s' =
                Js.update (outfitHistory s) c
                  (fun layer => mkLayer (garment layer)
                                  (Js.set (poseImages layer) key img))).
  { intros mk. unfold startBackgroundChange.
    destruct (_ || _); simpl; [intros [= <-]; auto|].
    unfold resolve, afterBackgroundChange, overwriteCurrentPoseImage, jsonClone.
    simpl. destruct o as [img|err]; simpl; intros [= <-]; simpl; [|auto].
    destruct (nth_error _ _); [|auto].
    destruct (Js.truthy _); [|auto].
    right. do 3 eexists. split; reflexivity. }
  destruct op as [url| |f g| |i|text|prompt|file]; simpl.
  - intros [= <-]. right. right. left. do 2 eexists. split; reflexivity.
  - intros [= <-]. right. left. reflexivity.
  - unfold handleGarmentSelect.
    destruct (_ || _); simpl; [intros [= <-]; auto|].
    destruct (isCachedNextLayer _ g); simpl; [intros [= <-]; auto|].
    unfold resolve. simpl.
    destruct o as [img|err]; simpl; intros [= <-]; simpl; [|auto].
    right. right. right. left. unfold pushLayer, Js.slice0, Js.singleton.
    do 4 eexists. split; reflexivity.
  - intros [= <-]. left. unfold handleRemoveLastGarment.
    destruct (0 <? _)%nat; reflexivity.
  - intros Hrun. destruct (Hpose i Hrun) as [H|H]; auto 6.
  - unfold handleCustomPoseGenerate.
    destruct (_ || _ || _); simpl; [intros [= <-]; auto|].
    destruct (Js.findIndex _ _) as [i|].
    + rewrite complete_callUnawaited. intros Hrun.
      destruct (Hpose i Hrun) as [H|H]; auto 6.
    + destruct (nth_error (outfitHistory s) (currentOutfitIndex s)) as [l|] eqn:Hl;
        simpl; [|intros [= <-]; auto].
      destruct (negb _); simpl; [intros [= <-]; auto|].
      unfold resolve, afterCustomPose, recordPoseImage. simpl. rewrite Hl.
      destruct o as [img|err]; simpl; intros [= <-]; simpl; [|auto].
      right. right. right. right. do 3 eexists. split; reflexivity.
  - intros Hrun. destruct (Hbg _ Hrun) as [H|H]; auto 6.
  - intros Hrun. destruct (Hbg _ Hrun) as [H|H]; auto 6.
Qed.

(** If the accepted model image and the images the service returns are not
    empty, every operation run to completion on a session in which every
    layer holds an image and no image is empty gives such a session again. *)
Theorem rendered_preserved s op o s' :
  rendered s ->
  bringsImage op o ->
  complete (invoke s op) o = Some s' ->
  rendered s'.
Proof.
  intros Hr (Hop & Ho) Hrun. unfold rendered in *.
  destruct (complete_history_shapes _ _ _ _ Hrun)
    as [-> | [-> | [(url & key & -> & ->) | [(g & key & img & n & -> & ->)
       | (key & img & c & -> & ->)]]]].
  - exact Hr.
  - constructor.
  - simpl in Hop. repeat constructor; simpl; auto. discriminate.
  - simpl in Ho. apply Forall_app. split.
    + rewrite <- (firstn_skipn n (outfitHistory s)) in Hr.
      apply Forall_app in Hr. tauto.
    + repeat constructor; simpl; auto. discriminate.
  - simpl in Ho. apply Forall_update; [exact Hr|].
    intros layer (Hne & Hall). simpl. split; [apply set_not_empty|].
    apply Forall_forall. intros x Hx.
    destruct (values_set _ _ _ _ Hx) as [->|Hin]; [exact Ho|].
    rewrite Forall_forall in Hall. auto.
Qed.


(** ** Taking garments off repeatedly *)

Lemma handleRemoveLastGarment_step u :
  outfitHistory (handleRemoveLastGarment u) = outfitHistory u /\
  currentOutfitIndex (handleRemoveLastGarment u) = currentOutfitIndex u - 1 /\
  wardrobe (handleRemoveLastGarment u) = wardrobe u /\
  poseInstructions (handleRemoveLastGarment u) = poseInstructions u.
Proof.
  unfold handleRemoveLastGarment.
  destruct (0 <? currentOutfitIndex u)%nat eqn:E; simpl.
  - repeat split.
  - apply Nat.ltb_ge in E. repeat split. lia.
Qed.

(** However often the last garment is removed, the history is left as it
    is, the cursor goes down by one each time and stops at 0. *)
Theorem removeLastGarment_iterated n s :
  let s' := Nat.iter n handleRemoveLastGarment s in
  outfitHistory s' = outfitHistory s /\
  currentOutfitIndex s' = currentOutfitIndex s - n /\
  wardrobe s' = wardrobe s /\
  poseInstructions s' = poseInstructions s.
Proof.
  induction n as [|n IH].
  - simpl. repeat split. lia.
  - destruct IH as (Hh & Hc & Hw & Hp).
    change (Nat.iter (S n) handleRemoveLastGarment s)
      with (handleRemoveLastGarment (Nat.iter n handleRemoveLastGarment s)).
    destruct (handleRemoveLastGarment_step
                (Nat.iter n handleRemoveLastGarment s))
      as (Hh1 & Hc1 & Hw1 & Hp1).
    cbv zeta. rewrite Hh1, Hc1, Hw1, Hp1, Hh, Hc, Hw, Hp.
    repeat split. lia.
Qed.

End Display.

Lemma rendered_freshModel : rendered freshModel.
Proof. repeat constructor; discriminate. Qed.

Lemma rendered_preserved_witness :
  rendered freshModel /\
  exists s',
    complete (host:=exampleHost)
      (invoke (host:=exampleHost) freshModel
         (ApplyGarment (host:=exampleHost) "shirt.png" shirt))
      (Fulfilled (host:=exampleHost) "imgB") = Some s' /\
    rendered s'.
Proof.
  split; [exact rendered_freshModel|].
  eexists. split; [reflexivity|].
  apply (rendered_preserved (host:=exampleHost) freshModel
           (ApplyGarment (host:=exampleHost) "shirt.png" shirt)
           (Fulfilled (host:=exampleHost) "imgB"));
    [exact rendered_freshModel|split; [exact I|discriminate]|reflexivity].
Defined.

